(** * go-deep-research: the research orchestration engine

    A shallow embedding of
      - [summarizeWebSearchResult] and [WebResearchWorkflow.Execute]
        (internal/workflows, web research),
      - [ClarifyWithUserWorkflow.Execute], the brief and the report workflows,
      - [ChatSession.Run] and its helpers (main.go),
    with the properties of the design document stated against them.

    Go values are modelled as follows.  A function returning [(T, error)]
    returns an [outcome T]: [Done] for a nil error, [Fail] for a non-nil one,
    [Panic] for a run-time panic, [Blocked] for a goroutine that waits on a
    channel for ever and [OutOfFuel] when the bound the model puts on a loop
    that the program does not bound is used up.  Mutable state reached through pointers (the two
    ledgers, the compressed notes, the brief) is passed explicitly.  External
    services (the completion service, the search service, the template
    engine, the JSON decoder) are parameters of the model.  What the program
    prints and which external calls it makes are recorded as events; its
    logging is not modelled. *)

From Stdlib Require Import String Ascii.
From stdpp Require Import base list strings.

Open Scope string_scope.
Open Scope list_scope.
Open Scope nat_scope.

(** ** Common vocabulary *)

(** Go's [error] values, by their message. *)
Definition error : Type := string.

(** [fmt.Errorf("<prefix>: %w", err)] *)
Definition wrap (prefix : string) (e : error) : error :=
  prefix +:+ ": " +:+ e.

Inductive outcome (A : Type) : Type :=
| Done (a : A)
| Fail (e : error)
| Panic
| Blocked
| OutOfFuel.
Arguments Done {A} a.
Arguments Fail {A} e.
Arguments Panic {A}.
Arguments Blocked {A}.
Arguments OutOfFuel {A}.

(** What an external service hands back for [(T, error)]. *)
Inductive result (A : Type) : Type :=
| Ok (a : A)
| Err (e : error).
Arguments Ok {A} a.
Arguments Err {A} e.

Definition nl : string := String (ascii_of_nat 10) EmptyString.

(** [strings.Join(elems, sep)] *)
Definition Join (elems : list string) (sep : string) : string :=
  String.concat sep elems.

(** ** Messages (go-openai) *)

Record FunctionCall : Type := { fn_Name : string; fn_Arguments : string }.

Record ToolCall : Type := { tc_ID : string; tc_Function : FunctionCall }.

Record ChatCompletionMessage : Type := {
  Role : string;
  Content : string;
  Name : string;
  ToolCallID : string;
  ToolCalls : list ToolCall
}.

Definition ChatMessageRoleSystem : string := "system".
Definition ChatMessageRoleUser : string := "user".
Definition ChatMessageRoleAssistant : string := "assistant".
Definition ChatMessageRoleTool : string := "tool".

(** [openai.ChatCompletionMessage{Role: role, Content: content}] *)
Definition message (role content : string) : ChatCompletionMessage :=
  {| Role := role; Content := content; Name := ""; ToolCallID := "";
     ToolCalls := [] |}.

(** ** What a session does to the outside *)

Inductive workflow : Type :=
| clarifyWithUser
| researchBriefGeneration
| webResearch
| researchReportGeneration.

Inductive event : Type :=
| Welcome                       (* fmt.Println(welcomeMessage) *)
| UserPrompt                    (* fmt.Print(userPromptColor) *)
| ErrorProcessing (e : error)   (* "Error processing your messages: ..." *)
| ErrorGenerating (e : error)   (* "Error generating response: ..." *)
| Response (resp : string)      (* fmt.Printf(gptResponseColor, resp) *)
| Executes (w : workflow)       (* Run calls the workflow's Execute *)
| Searches (arguments : string). (* SearchTool{}.Execute is called *)

(** ** Sequential code

    A computation over a state [S]: it ends in an [outcome], leaves a state
    behind whatever the outcome (what was mutated before an error stays
    mutated) and has done a sequence of [event]s. *)

Definition M (S A : Type) : Type := S → outcome A * S * list event.

#[global] Instance M_ret {S} : MRet (M S) := λ A a s, (Done a, s, []).

#[global] Instance M_bind {S} : MBind (M S) := λ A B k m s,
  match m s with
  | (Done a, s', tr) => let '(o, s'', tr') := k a s' in (o, s'', tr ++ tr')
  | (Fail e, s', tr) => (Fail e, s', tr)
  | (Panic, s', tr) => (Panic, s', tr)
  | (Blocked, s', tr) => (Blocked, s', tr)
  | (OutOfFuel, s', tr) => (OutOfFuel, s', tr)
  end.

Definition get {S} : M S S := λ s, (Done s, s, []).
Definition modify {S} (f : S → S) : M S unit := λ s, (Done (), f s, []).
Definition emit {S} (ev : event) : M S unit := λ s, (Done (), s, [ev]).
Definition stop {S A} (o : outcome A) : M S A := λ s, (o, s, []).

(** [v, err := f(...); if err != nil { return ..., err }] *)
Definition call {S A} (r : result A) : M S A :=
  match r with Ok a => mret a | Err e => stop (Fail e) end.

(** [v, err := f(...); if err != nil { return ..., fmt.Errorf("<prefix>: %w", err) }] *)
Definition call_wrapped {S A} (prefix : string) (r : result A) : M S A :=
  match r with Ok a => mret a | Err e => stop (Fail (wrap prefix e)) end.

(** [v, err := m(...)] where the caller looks at [err] itself. *)
Definition attempt {S A} (m : M S A) : M S (result A) := λ s,
  match m s with
  | (Done a, s', tr) => (Done (Ok a), s', tr)
  | (Fail e, s', tr) => (Done (Err e), s', tr)
  | (Panic, s', tr) => (Panic, s', tr)
  | (Blocked, s', tr) => (Blocked, s', tr)
  | (OutOfFuel, s', tr) => (OutOfFuel, s', tr)
  end.

(** A computation on a part of the state that is reached through a pointer. *)
Definition zoom {S T A} (view : S → T) (update : T → S → S) (m : M T A)
    : M S A := λ s,
  let '(o, t, tr) := m (view s) in (o, update t s, tr).

(** The arguments of the calls to the search service, oldest first. *)
Definition searches (tr : list event) : list string :=
  omap (λ ev, match ev with Searches arguments => Some arguments | _ => None end)
    tr.

(** [m] does nothing to the outside. *)
Definition silent {S A} (m : M S A) : Prop := ∀ s, snd (m s) = [].

(** Whatever its outcome, [m] leaves a state related to the one it found. *)
Definition preserves {S A} (R : relation S) (m : M S A) : Prop :=
  ∀ s, R s (snd (fst (m s))).

(** ** The concurrent summarizer ([summarizeWebSearchResult]) *)

Module Summarizer.

Record SummarizedResearchOutputSchema : Type := {
  Summary : string;
  KeyExcerpts : string
}.

Record workItem : Type := { w_index : nat; w_result : string }.

Record resultItem : Type := {
  index : nat;
  summary : string;
  err : option error
}.

(** The two external calls a worker makes for one job.  The completion
    service is not a function of the prompt alone, so its answer is indexed
    by the job that asks.  It fills the caller's struct through a pointer and
    returns an error or nil: both are part of the answer. *)
Record Services : Type := {
  PromptBuilder : string -> result string;
  CreateChatCompletion :
    nat -> string -> SummarizedResearchOutputSchema * option error
}.

Definition has_err (r : resultItem) : bool :=
  match err r with Some _ => true | None => false end.

(** [fmt.Sprintf("<summary>\n%s\n</summary>\n<key_excerpts>\n%s\n</key_excerpts>", ...)] *)
Definition format_summary (s : SummarizedResearchOutputSchema) : string :=
  "<summary>" +:+ nl +:+ Summary s +:+ nl +:+ "</summary>" +:+ nl +:+
  "<key_excerpts>" +:+ nl +:+ KeyExcerpts s +:+ nl +:+ "</key_excerpts>".

(** [numWorkers := min(len(results), 5)] *)
Definition numWorkers (results : list string) : nat :=
  Nat.min (length results) 5.

(** The feeder goroutine: [workChan <- workItem{index: i, result: result}]
    for every [i, result], then [close(workChan)].  The channel has room for
    all of them, so the feeder never waits and a worker sees the jobs in this
    order. *)
Definition jobs (results : list string) : list workItem :=
  imap (fun i r => {| w_index := i; w_result := r |}) results.

Section Pool.
Variable svc : Services.

(** One turn of a worker's [for work := range workChan] body: the values it
    sends on [resultChan], in order.  A failed prompt build sends the error
    and [continue]s.  A failed completion sends the error and, with no
    [continue] there, goes on to format whatever is in the struct and sends
    that as well. *)
Definition worker_body (work : workItem) : list resultItem :=
  match PromptBuilder svc (w_result work) with
  | Ok prompt =>
      let '(summarizedResearchNote, e) :=
        CreateChatCompletion svc (w_index work) prompt in
      let ok := {| index := w_index work;
                   summary := format_summary summarizedResearchNote;
                   err := None |} in
      match e with
      | Some e =>
          [ {| index := w_index work; summary := "";
               err := Some (wrap "failed to summarize" e) |}; ok ]
      | None => [ ok ]
      end
  | Err e =>
      [ {| index := w_index work; summary := "";
           err := Some (wrap "failed to build prompt" e) |} ]
  end.

(** The pool: the jobs still in [workChan], for every worker the sends it
    still has to do for the job it holds, and everything sent on
    [resultChan] so far, oldest first.  [resultChan] has room for
    [len(results)] values and the orchestrator receives at most that many,
    so the first [len(results)] sends never wait. *)
Record Pool : Type := {
  workChan : list workItem;
  pending : list (list resultItem);
  resultChan : list resultItem
}.

Definition spawn (results : list string) : Pool :=
  {| workChan := jobs results;
     pending := replicate (numWorkers results) [];
     resultChan := [] |}.

(** Worker [k] moves: it sends its next value, or receives its next job, or
    (channel closed and empty) leaves its loop. *)
Definition worker_step (p : Pool) (k : nat) : Pool :=
  match pending p !! k with
  | None => p
  | Some (r :: rs) =>
      {| workChan := workChan p;
         pending := <[k := rs]> (pending p);
         resultChan := resultChan p ++ [r] |}
  | Some [] =>
      match workChan p with
      | [] => p
      | work :: rest =>
          {| workChan := rest;
             pending := <[k := worker_body work]> (pending p);
             resultChan := resultChan p |}
      end
  end.

(** A schedule says which worker moves next. *)
Definition run_pool (sched : list nat) (p : Pool) : Pool :=
  foldl worker_step p sched.

(** No worker can move any more. *)
Definition quiescent (p : Pool) : bool :=
  match workChan p with
  | [] => forallb (fun rs => match rs with [] => true | _ => false end) (pending p)
  | _ :: _ => false
  end.

(** The orchestrator's loop
    [for i := 0; i < len(results); i++ { result := <-resultChan; ... }]
    over the values that arrive, with the slice it fills.  It returns what
    is left in the channel as well. *)
Fixpoint collect (n : nat) (chan : list resultItem)
    (summarizedResearchNotes : list string)
    : outcome (list string) * list resultItem :=
  match n with
  | 0 => (Done summarizedResearchNotes, chan)
  | S n' =>
      match chan with
      | [] => (Blocked, [])
      | result :: chan' =>
          match err result with
          | Some e => (Fail e, chan')
          | None =>
              if decide (index result < length summarizedResearchNotes)
              then collect n' chan'
                     (<[index result := summary result]> summarizedResearchNotes)
              else (Panic, chan')
          end
      end
  end.

(** [summarizeWebSearchResult(ctx, results, compressedResearchNotes, client)]
    under a schedule of its workers.  The second component is
    [*compressedResearchNotes] on return. *)
Definition summarizeWebSearchResult (sched : list nat) (results : list string)
    (compressedResearchNotes : list string) : outcome string * list string :=
  match results with
  | [] => (Fail "no results to summarize", compressedResearchNotes)
  | _ =>
      let p := run_pool sched (spawn results) in
      match fst (collect (length results) (resultChan p)
                   (replicate (length results) "")) with
      | Done summarizedResearchNotes =>
          (Done (Join summarizedResearchNotes nl),
           compressedResearchNotes ++ summarizedResearchNotes)
      | Fail e => (Fail e, compressedResearchNotes)
      | Panic => (Panic, compressedResearchNotes)
      | Blocked => (Blocked, compressedResearchNotes)
      | OutOfFuel => (OutOfFuel, compressedResearchNotes)
      end
  end.

(** How many values the orchestrator took off [resultChan]. *)
Definition received (sched : list nat) (results : list string) : nat :=
  let chan := resultChan (run_pool sched (spawn results)) in
  length chan - length (snd (collect (length results) chan
                               (replicate (length results) ""))).

(** *** Vocabulary of the statements about the pool *)

(** Everything the given jobs send, job after job. *)
Definition emitted (ws : list workItem) : list resultItem :=
  ws ≫= worker_body.

Definition job_succeeds (work : workItem) : Prop :=
  ∃ prompt, PromptBuilder svc (w_result work) = Ok prompt ∧
            snd (CreateChatCompletion svc (w_index work) prompt) = None.

Definition job_fails (work : workItem) : Prop :=
  ∃ r, r ∈ worker_body work ∧ has_err r = true.

(** The formatted block of a job whose prompt could be built. *)
Definition summary_of (work : workItem) : string :=
  match PromptBuilder svc (w_result work) with
  | Ok prompt =>
      format_summary (fst (CreateChatCompletion svc (w_index work) prompt))
  | Err _ => ""
  end.

(** What a job sends when nothing goes wrong. *)
Definition sent_ok (work : workItem) : resultItem :=
  {| index := w_index work; summary := summary_of work; err := None |}.

Definition failed (chan : list resultItem) : Prop :=
  ∃ r, r ∈ chan ∧ has_err r = true.

(** [summarizedResearchNotes[result.index] = result.summary] *)
Definition put (notes : list string) (r : resultItem) : list string :=
  <[index r := summary r]> notes.

(** What every reachable pool satisfies. *)
Record pool_inv (results : list string) (p : Pool) : Prop := {
  inv_suffix : ∃ taken, jobs results = taken ++ workChan p;
  inv_perm :
    resultChan p ++ concat (pending p) ++ emitted (workChan p)
      ≡ₚ emitted (jobs results);
  inv_pending : ∀ k rs, pending p !! k = Some rs →
    rs = [] ∨ (∃ w, w ∈ jobs results ∧ rs = worker_body w) ∨
    failed (resultChan p);
  inv_order : ∀ pre r post, resultChan p = pre ++ r :: post →
    has_err r = false →
    (∃ w, w ∈ jobs results ∧ worker_body w = [r]) ∨ failed pre
}.

(** Steps left before the pool is quiescent, at most. *)
Definition steps_left (p : Pool) : nat :=
  3 * length (workChan p) + length (concat (pending p)).

End Pool.

End Summarizer.

(** ** Prompts ([internal/llm])

    The answers of the outside world (the template engine with today's date,
    the completion services, the search service, the goroutine scheduler) are
    not functions of their arguments.  In the models below each of them is
    indexed by the ledger it is called under: within a session no two calls
    of the same service happen under the same ledger. *)

(** [BuildConversationHistory(systemPrompt, pastMessages)] *)
Definition BuildConversationHistory (systemPrompt : string)
    (pastMessages : list ChatCompletionMessage) : list ChatCompletionMessage :=
  let conversationHistory :=
    if decide (systemPrompt ≠ "")
    then [message ChatMessageRoleSystem systemPrompt]
    else [] in
  conversationHistory ++ pastMessages.

(** ** The web research workflow ([WebResearchWorkflow.Execute]) *)

Module Research.

Record State : Type := {
  messages : list ChatCompletionMessage;
  compressedResearchNotes : list string
}.

Record Services : Type := {
  (* PromptBuilder("web_research", webSearchPrompt, data) *)
  PromptBuilder : list ChatCompletionMessage → result string;
  (* wr.client.CreateChatCompletion: resp.Choices, as their messages *)
  CreateChatCompletion :
    list ChatCompletionMessage → result (list ChatCompletionMessage);
  (* tools.SearchTool{}.Execute *)
  SearchTool_Execute : list ChatCompletionMessage → string → result (list string);
  (* json.Unmarshal into a ReflectionTool: its Reflection field *)
  Unmarshal_ReflectionTool : string → result string;
  (* the summarization service and the goroutine schedule of a batch *)
  batch : list ChatCompletionMessage → Summarizer.Services * list nat
}.

Section Workflow.
Variable svc : Services.

(** [tools.ReflectionTool{}.Execute(input)] *)
Definition ReflectionTool_Execute (input : string) : result string :=
  match Unmarshal_ReflectionTool svc input with
  | Err e => Err e
  | Ok reflection => Ok ("Reflection recorded: " +:+ reflection)
  end.

Definition append (msg : ChatCompletionMessage) : M State unit :=
  modify (λ st, {| messages := messages st ++ [msg];
                   compressedResearchNotes := compressedResearchNotes st |}).

(** The call of [summarizeWebSearchResult] with [wr.compressedResearchNotes]. *)
Definition summarize (results : list string) : M State string := λ st,
  let '(summarizer, sched) := batch svc (messages st) in
  let '(o, notes) :=
    Summarizer.summarizeWebSearchResult summarizer sched results
      (compressedResearchNotes st) in
  (o, {| messages := messages st; compressedResearchNotes := notes |}, []).

Definition on_error {A} (prefix : string) (m : M State A) : M State A :=
  r ← attempt m;
  call_wrapped prefix r.

Definition tool_message (toolCall : ToolCall) (content : string)
    : ChatCompletionMessage :=
  {| Role := ChatMessageRoleTool; Content := content;
     Name := fn_Name (tc_Function toolCall); ToolCallID := tc_ID toolCall;
     ToolCalls := [] |}.

(** The body of [for _, toolCall := range msg.ToolCalls]: two [if]s, one
    after the other. *)
Definition dispatch (toolCall : ToolCall) : M State unit :=
  (if decide (fn_Name (tc_Function toolCall) = "search_tool") then
     st ← get;
     emit (Searches (fn_Arguments (tc_Function toolCall)));;
     results ← call_wrapped "failed to execute search tool"
                 (SearchTool_Execute svc (messages st)
                    (fn_Arguments (tc_Function toolCall)));
     summarizedResults ← on_error "failed to summarize web search results"
                           (summarize results);
     append (tool_message toolCall summarizedResults)
   else mret ());;
  (if decide (fn_Name (tc_Function toolCall) = "reflection_tool") then
     result ← call (ReflectionTool_Execute (fn_Arguments (tc_Function toolCall)));
     append (tool_message toolCall result)
   else mret ()).

Fixpoint dispatch_all (toolCalls : list ToolCall) : M State unit :=
  match toolCalls with
  | [] => mret ()
  | toolCall :: rest => dispatch toolCall;; dispatch_all rest
  end.

Definition Execute : M State (string * bool) :=
  st ← get;
  prompt ← call (PromptBuilder svc (messages st));
  let conversationHistory := BuildConversationHistory prompt (messages st) in
  choices ← call_wrapped "failed to create chat completion"
              (CreateChatCompletion svc conversationHistory);
  match choices with
  | [] => stop Panic                     (* resp.Choices[0] *)
  | msg :: _ =>
      append msg;;
      if decide (length (ToolCalls msg) = 0) then mret ("", false)
      else dispatch_all (ToolCalls msg);; mret ("", true)
  end.

End Workflow.

(** The ledger only grows at its end. *)
Definition grows (st st' : State) : Prop :=
  messages st `prefix_of` messages st'.

(** The turn asks for a search. *)
Definition is_search (toolCall : ToolCall) : Prop :=
  fn_Name (tc_Function toolCall) = "search_tool".

#[global] Instance is_search_dec toolCall : Decision (is_search toolCall) :=
  decide (fn_Name (tc_Function toolCall) = "search_tool").

Definition known (toolCall : ToolCall) : Prop :=
  fn_Name (tc_Function toolCall) = "search_tool" ∨
  fn_Name (tc_Function toolCall) = "reflection_tool".

End Research.

(** ** The clarification workflow ([ClarifyWithUserWorkflow.Execute]) *)

Module Clarify.

Record ClarifyWithUserOutputSchema : Type := {
  NeedClarification : bool;
  Question : string;
  Verification : string
}.

Record Services : Type := {
  (* PromptBuilder("clarify_with_user", clarifyWithUserPrompt, data) *)
  PromptBuilder : list ChatCompletionMessage → result string;
  (* cwu.client.CreateChatCompletion(..., &ClarifyWithUserResponse) *)
  CreateChatCompletion :
    list ChatCompletionMessage → string → result ClarifyWithUserOutputSchema
}.

Definition Execute (svc : Services)
    : M (list ChatCompletionMessage) (string * bool) :=
  messages ← get;
  prompt ← call (PromptBuilder svc messages);
  ClarifyWithUserResponse ←
    call_wrapped "failed to create chat completion"
      (CreateChatCompletion svc messages prompt);
  if negb (NeedClarification ClarifyWithUserResponse) then
    modify (λ ms, ms ++ [message ChatMessageRoleAssistant
                           (Verification ClarifyWithUserResponse)]);;
    mret (Verification ClarifyWithUserResponse, false)
  else
    modify (λ ms, ms ++ [message ChatMessageRoleAssistant
                           (Question ClarifyWithUserResponse)]);;
    mret (Question ClarifyWithUserResponse, true).

End Clarify.

(** ** The brief workflow ([ResearchBriefGenerationWorkflow.Execute]) *)

Module Brief.

Record Services : Type := {
  (* PromptBuilder("research_brief_generation", ..., data) *)
  PromptBuilder : list ChatCompletionMessage → result string;
  (* rbg.client.CreateChatCompletion(..., &ResearchBriefGenerationResponse):
     the ResearchBrief field *)
  CreateChatCompletion : list ChatCompletionMessage → string → result string
}.

Definition Execute (svc : Services)
    : M (list ChatCompletionMessage) (string * bool) :=
  messages ← get;
  prompt ← call (PromptBuilder svc messages);
  ResearchBrief ←
    call_wrapped "failed to create chat completion"
      (CreateChatCompletion svc messages prompt);
  modify (λ ms, ms ++ [message ChatMessageRoleAssistant ResearchBrief]);;
  mret (ResearchBrief, false).

End Brief.

(** ** The report workflow ([ResearchReportGeneration.Execute]) *)

Module Report.

Record State : Type := {
  researchBrief : string;
  compressedResearchNotes : list string
}.

Record Services : Type := {
  (* PromptBuilder("research_report_generation", writeResearchReportPrompt, data) *)
  PromptBuilder : State → result string;
  (* rrg.client.CreateChatCompletion(..., &ResearchReport): the Report field *)
  CreateChatCompletion : State → string → result string
}.

Definition Execute (svc : Services) : M State (string * bool) :=
  data ← get;
  prompt ← call_wrapped "failed to build prompt" (PromptBuilder svc data);
  report ← call_wrapped "failed to generate research report"
             (CreateChatCompletion svc data prompt);
  mret (report, true).

End Report.

(** ** The session ([main.go]) *)

Module Session.

Record ChatSessionState : Type := {
  conversation : list ChatCompletionMessage;
  researchConversation : list ChatCompletionMessage;
  researchBrief : string;
  compressedResearchNotes : list string
}.

(** [ChatSessionWorkflow]: [Execute(ctx) (any, bool, error)].  All four
    implementations answer with a string. *)
Definition ChatSessionWorkflow : Type := M ChatSessionState (string * bool).

Record WorkflowManager : Type := {
  wf_clarifyWithUser : ChatSessionWorkflow;
  wf_researchBriefGeneration : ChatSessionWorkflow;
  wf_webResearch : ChatSessionWorkflow;
  wf_researchReportGeneration : ChatSessionWorkflow
}.

(** [cs.addUserMessage(message)] *)
Definition addUserMessage (msg : string) : M ChatSessionState unit :=
  if decide (String.length msg = 0)
  then stop (Fail "user message cannot be empty")
  else modify (λ st,
         {| conversation :=
              conversation st ++ [message ChatMessageRoleUser msg];
            researchConversation := researchConversation st;
            researchBrief := researchBrief st;
            compressedResearchNotes := compressedResearchNotes st |}).

(** [cs.processUserInput()], given what [cs.getUserMessage()] returns:
    [Some line] for [(line, true)], [None] for [("", false)] (end of input or
    a cancelled context). *)
Definition processUserInput (userInput : option string)
    : M ChatSessionState bool :=
  emit UserPrompt;;
  match userInput with
  | None => mret false
  | Some userInput =>
      r ← attempt (addUserMessage userInput);
      match r with
      | Err e => emit (ErrorProcessing e);; mret true
      | Ok _ => mret true
      end
  end.

Section Run.
Variable wf : WorkflowManager.

(** One turn of the first [for] of [Run]; [again] is the next turn and
    [rest] the lines not read yet. *)
Definition clarifyTurn (userInput : option string) (rest : list string)
    (again : M ChatSessionState (list string))
    : M ChatSessionState (list string) :=
  ok ← processUserInput userInput;
  if negb ok then mret rest
  else
    emit (Executes clarifyWithUser);;
    r ← attempt (wf_clarifyWithUser wf);
    match r with
    | Err e => emit (ErrorGenerating e);; mret rest
    | Ok (resp, cont) =>
        emit (Response resp);;
        if negb cont then mret rest else again
    end.

(** The first [for] of [Run], over the lines standard input still holds.
    It returns the lines it has not read. *)
Fixpoint clarifyLoop (input : list string)
    : M ChatSessionState (list string) :=
  match input with
  | [] => clarifyTurn None [] (mret [])
  | line :: rest => clarifyTurn (Some line) rest (clarifyLoop rest)
  end.

(** The second [for] of [Run]; nothing bounds it in the program. *)
Fixpoint researchLoop (fuel : nat) : M ChatSessionState unit :=
  match fuel with
  | 0 => stop OutOfFuel
  | S fuel =>
      emit (Executes webResearch);;
      r ← attempt (wf_webResearch wf);
      match r with
      | Err _ => mret ()
      | Ok (_, cont) => if negb cont then mret () else researchLoop fuel
      end
  end.

(** [cs.state.researchBrief = resp.(string)] and the [append] to
    [cs.state.researchConversation] that follows it. *)
Definition seed (resp : string) (st : ChatSessionState) : ChatSessionState :=
  {| conversation := conversation st;
     researchConversation :=
       researchConversation st ++ [message ChatMessageRoleUser resp];
     researchBrief := resp;
     compressedResearchNotes := compressedResearchNotes st |}.

Definition set_brief (resp : string) : M ChatSessionState unit :=
  modify (seed resp).

(** "Workflow 4" of [Run]. *)
Definition reportPhase : M ChatSessionState unit :=
  emit (Executes researchReportGeneration);;
  r ← attempt (wf_researchReportGeneration wf);
  match r with
  | Err e => stop (Fail ("error generating response: " +:+ e))
  | Ok (resp, _) => emit (Response resp)
  end.

(** "Workflow 2" of [Run] and what follows it. *)
Definition briefPhase (fuel : nat) : M ChatSessionState unit :=
  emit (Executes researchBriefGeneration);;
  r ← attempt (wf_researchBriefGeneration wf);
  match r with
  | Err e => stop (Fail ("error generating response: " +:+ e))
  | Ok (resp, _) =>
      set_brief resp;;
      researchLoop fuel;;
      reportPhase
  end.

(** [cs.Run()] with the lines of standard input. *)
Definition Run (fuel : nat) (input : list string) : M ChatSessionState unit :=
  emit Welcome;;
  clarifyLoop input;;
  briefPhase fuel.

End Run.

Record Services : Type := {
  clarify : Clarify.Services;
  brief : Brief.Services;
  research : Research.Services;
  report : Report.Services
}.

(** The state and the workflows [NewChatSession] builds; every workflow gets
    pointers to the fields of the state it works on. *)
Definition initial : ChatSessionState :=
  {| conversation := []; researchConversation := []; researchBrief := "";
     compressedResearchNotes := [] |}.

Definition on_conversation {A} : M (list ChatCompletionMessage) A → M ChatSessionState A :=
  zoom conversation
    (λ ms st, {| conversation := ms;
                 researchConversation := researchConversation st;
                 researchBrief := researchBrief st;
                 compressedResearchNotes := compressedResearchNotes st |}).

Definition on_research {A} : M Research.State A → M ChatSessionState A :=
  zoom (λ st, {| Research.messages := researchConversation st;
                 Research.compressedResearchNotes := compressedResearchNotes st |})
    (λ r st, {| conversation := conversation st;
                researchConversation := Research.messages r;
                researchBrief := researchBrief st;
                compressedResearchNotes := Research.compressedResearchNotes r |}).

Definition on_report {A} : M Report.State A → M ChatSessionState A :=
  zoom (λ st, {| Report.researchBrief := researchBrief st;
                 Report.compressedResearchNotes := compressedResearchNotes st |})
    (λ r st, {| conversation := conversation st;
                researchConversation := researchConversation st;
                researchBrief := Report.researchBrief r;
                compressedResearchNotes := Report.compressedResearchNotes r |}).

Definition NewChatSession (svc : Services) : WorkflowManager :=
  {| wf_clarifyWithUser := on_conversation (Clarify.Execute (clarify svc));
     wf_researchBriefGeneration := on_conversation (Brief.Execute (brief svc));
     wf_webResearch := on_research (Research.Execute (research svc));
     wf_researchReportGeneration := on_report (Report.Execute (report svc)) |}.

(** The brief and the research ledger are as they were. *)
Definition untouched (st st' : ChatSessionState) : Prop :=
  researchBrief st' = researchBrief st ∧
  researchConversation st' = researchConversation st.

(** The brief is as it was and the research ledger has only grown at its
    end. *)
Definition brief_kept (st st' : ChatSessionState) : Prop :=
  researchBrief st' = researchBrief st ∧
  researchConversation st `prefix_of` researchConversation st'.

End Session.

(** ** Stub services, for running the model *)

Module Stub.

Definition docs : list string := ["doc-A"; "doc-B"; "doc-C"].

(** Every summarization succeeds. *)
Definition summarizer : Summarizer.Services :=
  {| Summarizer.PromptBuilder := λ raw, Ok raw;
     Summarizer.CreateChatCompletion := λ i prompt,
       ({| Summarizer.Summary := "summary of " +:+ prompt;
           Summarizer.KeyExcerpts := "" |}, None) |}.

(** The completion call of job 0 fails. *)
Definition summarizer_failing : Summarizer.Services :=
  {| Summarizer.PromptBuilder := λ raw, Ok raw;
     Summarizer.CreateChatCompletion := λ i prompt,
       match i with
       | 0 => ({| Summarizer.Summary := ""; Summarizer.KeyExcerpts := "" |},
               Some "rate limited")
       | _ => ({| Summarizer.Summary := "summary of " +:+ prompt;
                  Summarizer.KeyExcerpts := "" |}, None)
       end |}.

(** Three workers take one job each (worker 2 the first, worker 0 the
    second, worker 1 the third) and finish in another order. *)
Definition out_of_order : list nat := [2; 0; 1; 1; 2; 0].

(** The same, for a batch whose job 0 sends twice. *)
Definition error_last : list nat := [2; 0; 1; 0; 1; 2; 2].

(** Worker 0 does everything. *)
Definition one_worker : list nat := [0; 0; 0; 0; 0; 0; 0].

(** A call of the given tool. *)
Definition tool_call (name arguments : string) : ToolCall :=
  {| tc_ID := "call-1";
     tc_Function := {| fn_Name := name; fn_Arguments := arguments |} |}.

(** An assistant turn with tool calls. *)
Definition turn (toolCalls : list ToolCall) : ChatCompletionMessage :=
  {| Role := ChatMessageRoleAssistant; Content := ""; Name := "";
     ToolCallID := ""; ToolCalls := toolCalls |}.

(** A model that asks for one search in every turn as long as the history
    it is shown has at most 12 messages (the system prompt, the brief and
    five rounds of turn and tool answer), and then answers in plain text. *)
Definition eager : Research.Services :=
  {| Research.PromptBuilder := λ _, Ok "web research prompt";
     Research.CreateChatCompletion := λ history,
       Ok [ if decide (length history ≤ 12)
            then turn [tool_call "search_tool" "query"]
            else message ChatMessageRoleAssistant "done" ];
     Research.SearchTool_Execute := λ _ _, Ok docs;
     Research.Unmarshal_ReflectionTool := λ input, Ok input;
     Research.batch := λ _, (summarizer, out_of_order) |}.

(** The completion service is down. *)
Definition research_down : Research.Services :=
  {| Research.PromptBuilder := λ _, Ok "web research prompt";
     Research.CreateChatCompletion := λ _, Err "connection refused";
     Research.SearchTool_Execute := λ _ _, Ok docs;
     Research.Unmarshal_ReflectionTool := λ input, Ok input;
     Research.batch := λ _, (summarizer, out_of_order) |}.

Definition clarify_ok : Clarify.Services :=
  {| Clarify.PromptBuilder := λ _, Ok "clarify prompt";
     Clarify.CreateChatCompletion := λ _ _,
       Ok {| Clarify.NeedClarification := false; Clarify.Question := "";
             Clarify.Verification := "Information complete." |} |}.

Definition brief_ok : Brief.Services :=
  {| Brief.PromptBuilder := λ _, Ok "brief prompt";
     Brief.CreateChatCompletion := λ _ _, Ok "the brief" |}.

Definition report_ok : Report.Services :=
  {| Report.PromptBuilder := λ _, Ok "report prompt";
     Report.CreateChatCompletion := λ _ _, Ok "the report" |}.

Definition session (research : Research.Services) : Session.Services :=
  {| Session.clarify := clarify_ok; Session.brief := brief_ok;
     Session.research := research; Session.report := report_ok |}.

(** The research state after the brief and five rounds of [eager]. *)
Definition after_five_searches : Research.State :=
  let st := snd (fst (Session.researchLoop (Session.NewChatSession (session eager)) 5
                        {| Session.conversation := [];
                           Session.researchConversation :=
                             [message ChatMessageRoleUser "the brief"];
                           Session.researchBrief := "the brief";
                           Session.compressedResearchNotes := [] |})) in
  {| Research.messages := Session.researchConversation st;
     Research.compressedResearchNotes := Session.compressedResearchNotes st |}.

(** The prompt tells the model about a [think_tool]; no such tool is
    dispatched. *)
Definition think : ToolCall := tool_call "think_tool" "{}".

(** A model that follows the prompt and calls [think_tool]. *)
Definition thinker : Research.Services :=
  {| Research.PromptBuilder := λ _, Ok "web research prompt";
     Research.CreateChatCompletion := λ _, Ok [turn [think]];
     Research.SearchTool_Execute := λ _ _, Ok docs;
     Research.Unmarshal_ReflectionTool := λ input, Ok input;
     Research.batch := λ _, (summarizer, out_of_order) |}.

(** A model that answers in plain text at once. *)
Definition quiet : Research.Services :=
  {| Research.PromptBuilder := λ _, Ok "web research prompt";
     Research.CreateChatCompletion := λ _,
       Ok [message ChatMessageRoleAssistant "nothing to search"];
     Research.SearchTool_Execute := λ _ _, Ok docs;
     Research.Unmarshal_ReflectionTool := λ input, Ok input;
     Research.batch := λ _, (summarizer, out_of_order) |}.

Definition research_state : Research.State :=
  {| Research.messages := [message ChatMessageRoleUser "the brief"];
     Research.compressedResearchNotes := [] |}.

End Stub.

(** ** Configuration ([internal/config]) *)

Module Config.

Record Config : Type := {
  OpenAIKey : string;
  ExaKey : string;
  ExaEndpoint : string;
  ExaNumSearchResult : Z
}.

(** The process environment and the library functions the package calls on
    it. *)
Record Env : Type := {
  Getenv : string → string;      (* os.Getenv: the empty string when unset *)
  TrimSpace : string → string;   (* strings.TrimSpace *)
  Atoi : string → result Z       (* strconv.Atoi *)
}.

(** [GetEnvOrDefault(key, def, parser)].  The second component says whether
    the warning was written to standard error. *)
Definition GetEnvOrDefault {T} (env : Env) (key : string) (def : T)
    (parser : string → result T) : T * bool :=
  let raw := TrimSpace env (Getenv env key) in
  if decide (raw = "") then (def, false)
  else
    match parser raw with
    | Err _ => (def, true)
    | Ok val => (val, false)
    end.

Definition StringParser (s : string) : result string := Ok s.

Definition IntParser (env : Env) (s : string) : result Z := Atoi env s.

Definition GetString (env : Env) (key def : string) : string * bool :=
  GetEnvOrDefault env key def StringParser.

Definition GetInt (env : Env) (key : string) (def : Z) : Z * bool :=
  GetEnvOrDefault env key def (IntParser env).

(** [LoadConfig()] *)
Definition LoadConfig (env : Env) : result Config :=
  Ok {| OpenAIKey := fst (GetString env "OPENAI_API_KEY" "");
        ExaKey := fst (GetString env "EXA_API_KEY" "");
        ExaEndpoint := "https://api.exa.ai/search";
        ExaNumSearchResult := 10 |}.

End Config.

(** ** The search tool ([internal/tools/search.go]) *)

Module Tools.

Record exaSearchRequest : Type := {
  Query : string;
  Type_ : string;
  NumResults : Z;
  Content : list (string * bool)   (* map[string]any{"text": true} *)
}.

Record exaIndividualSearchResult : Type := {
  ID : string;
  Title : string;
  Url : string;
  PublishedDate : string;
  Author : string;
  Text : string;
  Image : string
}.

(** What [http.NewRequest] and the two [req.Header.Set] build. *)
Record Request : Type := {
  Method : string;
  URL : string;
  Header : list (string * string);
  Body : string
}.

(** The outside of the search tool: the environment, the JSON codec and the
    HTTP transport.  [Do] answers with an error or with a response, and a
    response with what [io.ReadAll] gets from its body. *)
Record World : Type := {
  env : Config.Env;
  (* json.Unmarshal(input, &searchInput): the Query field *)
  Unmarshal_SearchTool : string → result string;
  (* json.Marshal(&exaSearchRequest{...}) *)
  Marshal : exaSearchRequest → result string;
  (* the error of http.NewRequest, if any *)
  NewRequest : string → string → option error;
  (* e.client.Do(req), then io.ReadAll(resp.Body) *)
  Do : Request → result (result string);
  (* json.Unmarshal(body, &searchResult): the Results field *)
  Unmarshal_exaSearchResponse : string → result (list exaIndividualSearchResult)
}.

(** [(e *exaClient).Search(cfg, query)] *)
Definition Search (w : World) (cfg : Config.Config) (query : string)
    : result (list string) :=
  match NewRequest w "POST" (Config.ExaEndpoint cfg) with
  | Some e => Err (wrap "failed to create request" e)
  | None =>
      let req := {| Method := "POST"; URL := Config.ExaEndpoint cfg;
                    Header := [("x-api-key", Config.ExaKey cfg);
                               ("Content-Type", "application/json")];
                    Body := query |} in
      match Do w req with
      | Err e => Err (wrap "failed to send request" e)
      | Ok (Err e) => Err (wrap "failed to read response body" e)
      | Ok (Ok body) =>
          match Unmarshal_exaSearchResponse w body with
          | Err e => Err (wrap "failed to parse JSON response" e)
          | Ok results => Ok (Text <$> results)
          end
      end
  end.

(** [SearchTool.Execute(input)] *)
Definition Execute (w : World) (input : string) : result (list string) :=
  match Config.LoadConfig (env w) with
  | Err e => Err (wrap "failed to load configuration" e)
  | Ok cfg =>
      match Unmarshal_SearchTool w input with
      | Err e => Err (wrap "failed to parse search input" e)
      | Ok query =>
          match Marshal w {| Query := query; Type_ := "auto";
                             NumResults := Config.ExaNumSearchResult cfg;
                             Content := [("text", true)] |} with
          | Err e => Err (wrap "failed to parse search input" e)
          | Ok requestPayload =>
              match Search w cfg requestPayload with
              | Err e => Err (wrap "failed to search" e)
              | Ok results => Ok results
              end
          end
      end
  end.

(** The research services with the search tool of this package. *)
Definition with_search (w : World) (svc : Research.Services) : Research.Services :=
  {| Research.PromptBuilder := Research.PromptBuilder svc;
     Research.CreateChatCompletion := Research.CreateChatCompletion svc;
     Research.SearchTool_Execute := λ _ input, Execute w input;
     Research.Unmarshal_ReflectionTool := Research.Unmarshal_ReflectionTool svc;
     Research.batch := Research.batch svc |}.

End Tools.

(** ** More vocabulary for the statements *)

#[global] Instance known_dec toolCall : Decision (Research.known toolCall).
Proof. unfold Research.known. apply _. Defined.

(** Both the ledger and the compressed notes only grow at their end. *)
Definition appends (st st' : Research.State) : Prop :=
  Research.messages st `prefix_of` Research.messages st' ∧
  Research.compressedResearchNotes st
    `prefix_of` Research.compressedResearchNotes st'.

(** The tool message that answers a tool call. *)
Definition answers (toolCall : ToolCall) (m : ChatCompletionMessage) : Prop :=
  Role m = ChatMessageRoleTool ∧
  Name m = fn_Name (tc_Function toolCall) ∧
  ToolCallID m = tc_ID toolCall ∧
  ToolCalls m = [].

(** The completion call of the job returns an error. *)
Definition completion_fails (svc : Summarizer.Services)
    (work : Summarizer.workItem) : Prop :=
  ∃ prompt e,
    Summarizer.PromptBuilder svc (Summarizer.w_result work) = Ok prompt ∧
    snd (Summarizer.CreateChatCompletion svc (Summarizer.w_index work) prompt)
    = Some e.

#[global] Instance completion_fails_dec svc work :
  Decision (completion_fails svc work).
Proof.
  unfold completion_fails.
  destruct (Summarizer.PromptBuilder svc (Summarizer.w_result work))
    as [prompt|e] eqn:EP.
  - destruct (snd (Summarizer.CreateChatCompletion svc
                     (Summarizer.w_index work) prompt)) as [e|] eqn:EC.
    + left. by exists prompt, e.
    + right. intros (prompt' & e & [= <-] & H). congruence.
  - right. by intros (prompt' & e' & [=] & _).
Defined.

#[global] Instance workflow_eq_dec : EqDecision workflow.
Proof. solve_decision. Defined.

#[global] Instance event_eq_dec : EqDecision event.
Proof. unfold error. solve_decision. Defined.

(** How often [Run] executes a workflow, by its events. *)
Definition executions (w : workflow) (tr : list event) : nat :=
  length (filter (λ ev, ev = Executes w) tr).

(** ** More stub services *)

Module Fixture.

Definition environment : Config.Env :=
  {| Config.Getenv := λ key,
       if decide (key = "EXA_API_KEY") then "  exa-key " else "";
     Config.TrimSpace := λ s,
       if decide (s = "  exa-key ") then "exa-key" else s;
     Config.Atoi := λ s, Err "invalid syntax" |}.

Definition hit (text : string) : Tools.exaIndividualSearchResult :=
  {| Tools.ID := "id"; Tools.Title := "title"; Tools.Url := "url";
     Tools.PublishedDate := ""; Tools.Author := ""; Tools.Text := text;
     Tools.Image := "" |}.

(** A search service that answers with the given hits. *)
Definition online (hits : list Tools.exaIndividualSearchResult) : Tools.World :=
  {| Tools.env := environment;
     Tools.Unmarshal_SearchTool := λ input, Ok input;
     Tools.Marshal := λ request, Ok (Tools.Query request);
     Tools.NewRequest := λ _ _, None;
     Tools.Do := λ _, Ok (Ok "response body");
     Tools.Unmarshal_exaSearchResponse := λ _, Ok hits |}.

(** A search service that cannot be reached. *)
Definition offline : Tools.World :=
  {| Tools.env := environment;
     Tools.Unmarshal_SearchTool := λ input, Ok input;
     Tools.Marshal := λ request, Ok (Tools.Query request);
     Tools.NewRequest := λ _ _, None;
     Tools.Do := λ _, Err "network unreachable";
     Tools.Unmarshal_exaSearchResponse := λ _, Ok [] |}.

(** A model whose turn asks for a think, a search and another search. *)
Definition busy_turn : ChatCompletionMessage :=
  Stub.turn [Stub.think; Stub.tool_call "search_tool" "first";
             Stub.tool_call "search_tool" "second"].

Definition busy : Research.Services :=
  {| Research.PromptBuilder := λ _, Ok "web research prompt";
     Research.CreateChatCompletion := λ _, Ok [busy_turn];
     Research.SearchTool_Execute := λ _ _, Ok Stub.docs;
     Research.Unmarshal_ReflectionTool := λ input, Ok input;
     Research.batch := λ _, (Stub.summarizer, Stub.out_of_order) |}.

(** A model whose turn asks for a search and a reflection. *)
Definition careful_turn : ChatCompletionMessage :=
  Stub.turn [Stub.tool_call "search_tool" "query"; Stub.think;
             Stub.tool_call "reflection_tool" "enough found"].

Definition careful : Research.Services :=
  {| Research.PromptBuilder := λ _, Ok "web research prompt";
     Research.CreateChatCompletion := λ _, Ok [careful_turn];
     Research.SearchTool_Execute := λ _ _, Ok Stub.docs;
     Research.Unmarshal_ReflectionTool := λ input, Ok input;
     Research.batch := λ _, (Stub.summarizer, Stub.out_of_order) |}.

(** A report model that cannot be reached. *)
Definition report_down : Report.Services :=
  {| Report.PromptBuilder := λ _, Ok "report prompt";
     Report.CreateChatCompletion := λ _ _, Err "connection refused" |}.

(** A session whose last workflow fails. *)
Definition no_report : Session.Services :=
  {| Session.clarify := Stub.clarify_ok; Session.brief := Stub.brief_ok;
     Session.research := Stub.quiet; Session.report := report_down |}.

End Fixture.

(** * Properties *)

(** ** Sequential code *)

Section Laws.
Context {S : Type}.

Lemma ret_bind {A B} (a : A) (k : A → M S B) s : (mret a ≫= k) s = k a s.
Proof. unfold mbind, M_bind, mret, M_ret. by destruct (k a s) as [[o s'] tr]. Qed.

Lemma get_bind {B} (k : S → M S B) s : (get ≫= k) s = k s s.
Proof. unfold mbind, M_bind, get. by destruct (k s s) as [[o s'] tr]. Qed.

Lemma modify_bind {B} (f : S → S) (k : unit → M S B) s :
  (modify f ≫= k) s = k () (f s).
Proof. unfold mbind, M_bind, modify. by destruct (k () (f s)) as [[o s'] tr]. Qed.

Lemma emit_bind {B} ev (k : unit → M S B) s :
  (emit ev ≫= k) s = (fst (k () s), ev :: snd (k () s)).
Proof. unfold mbind, M_bind, emit. by destruct (k () s) as [[o s'] tr]. Qed.

Lemma bind_done {A B} (m : M S A) (k : A → M S B) s a s1 tr1 :
  m s = (Done a, s1, tr1) →
  (m ≫= k) s = (fst (k a s1), tr1 ++ snd (k a s1)).
Proof.
  intros E. unfold mbind, M_bind. rewrite E. by destruct (k a s1) as [[o s'] tr].
Qed.

Lemma bind_done_inv {A B} (m : M S A) (k : A → M S B) s b s2 tr :
  (m ≫= k) s = (Done b, s2, tr) →
  ∃ a s1 tr1 tr2,
    m s = (Done a, s1, tr1) ∧ k a s1 = (Done b, s2, tr2) ∧ tr = tr1 ++ tr2.
Proof.
  unfold mbind, M_bind. destruct (m s) as [[[a|e| | |] s1] tr1]; try done.
  destruct (k a s1) as [[o s2'] tr2] eqn:E. intros [= -> -> <-].
  by exists a, s1, tr1, tr2.
Qed.

Lemma attempt_done {A} (m : M S A) s a s1 tr :
  m s = (Done a, s1, tr) → attempt m s = (Done (Ok a), s1, tr).
Proof. intros E. unfold attempt. by rewrite E. Qed.

Lemma attempt_fail {A} (m : M S A) s e s1 tr :
  m s = (Fail e, s1, tr) → attempt m s = (Done (Err e), s1, tr).
Proof. intros E. unfold attempt. by rewrite E. Qed.

(** *** Computations that do nothing to the outside *)

Lemma silent_ret {A} (a : A) : silent (mret a : M S A).
Proof. done. Qed.

Lemma silent_get : silent (get : M S S).
Proof. done. Qed.

Lemma silent_modify f : silent (modify f : M S unit).
Proof. done. Qed.

Lemma silent_stop {A} (o : outcome A) : silent (stop o : M S A).
Proof. done. Qed.

Lemma silent_call {A} (r : result A) : silent (call r : M S A).
Proof. by destruct r. Qed.

Lemma silent_call_wrapped {A} prefix (r : result A) :
  silent (call_wrapped prefix r : M S A).
Proof. by destruct r. Qed.

Lemma silent_bind {A B} (m : M S A) (k : A → M S B) :
  silent m → (∀ a, silent (k a)) → silent (m ≫= k).
Proof.
  intros Hm Hk s. unfold mbind, M_bind. specialize (Hm s).
  destruct (m s) as [[[a|e| | |] s1] tr1]; simpl in *; try done.
  specialize (Hk a s1). destruct (k a s1) as [[o s2] tr2]. simpl in *.
  by subst.
Qed.

Lemma silent_attempt {A} (m : M S A) : silent m → silent (attempt m).
Proof.
  intros Hm s. unfold attempt. specialize (Hm s).
  by destruct (m s) as [[[a|e| | |] s1] tr1].
Qed.

(** *** Computations that keep a relation between the states *)

Context (R : relation S) `{!PreOrder R}.

Lemma preserves_ret {A} (a : A) : preserves R (mret a : M S A).
Proof. by intros s. Qed.

Lemma preserves_get : preserves R (get : M S S).
Proof. by intros s. Qed.

Lemma preserves_emit ev : preserves R (emit ev : M S unit).
Proof. by intros s. Qed.

Lemma preserves_stop {A} (o : outcome A) : preserves R (stop o : M S A).
Proof. by intros s. Qed.

Lemma preserves_call {A} (r : result A) : preserves R (call r : M S A).
Proof. destruct r; by intros s. Qed.

Lemma preserves_call_wrapped {A} prefix (r : result A) :
  preserves R (call_wrapped prefix r : M S A).
Proof. destruct r; by intros s. Qed.

Lemma preserves_modify f : (∀ s, R s (f s)) → preserves R (modify f).
Proof. intros H s. apply H. Qed.

Lemma preserves_bind {A B} (m : M S A) (k : A → M S B) :
  preserves R m → (∀ a, preserves R (k a)) → preserves R (m ≫= k).
Proof.
  intros Hm Hk s. unfold mbind, M_bind. specialize (Hm s).
  destruct (m s) as [[[a|e| | |] s1] tr1]; simpl in *; try done.
  specialize (Hk a s1). destruct (k a s1) as [[o s2] tr2]. simpl in *.
  by etrans.
Qed.

Lemma preserves_attempt {A} (m : M S A) :
  preserves R m → preserves R (attempt m).
Proof.
  intros Hm s. unfold attempt. specialize (Hm s).
  by destruct (m s) as [[[a|e| | |] s1] tr1].
Qed.

End Laws.

(** ** The summarizer's worker pool *)

Section PoolFacts.
Import Summarizer.
Variable svc : Services.

Lemma worker_step_workers p k :
  length (pending (worker_step svc p k)) = length (pending p).
Proof.
  unfold worker_step.
  destruct (pending p !! k) as [[|r rs]|] eqn:E; try done.
  - destruct (workChan p); simpl; [done | by rewrite length_insert].
  - simpl. by rewrite length_insert.
Qed.

Lemma run_pool_workers sched p :
  length (pending (run_pool svc sched p)) = length (pending p).
Proof.
  revert p. induction sched as [|k sched IH]; intros p; simpl; [done|].
  unfold run_pool in *. simpl. rewrite IH. apply worker_step_workers.
Qed.

Lemma worker_body_cases w :
  (∃ e, worker_body svc w =
          [ {| index := w_index w; summary := ""; err := Some e |} ]) ∨
  (∃ e, worker_body svc w =
          [ {| index := w_index w; summary := ""; err := Some e |};
            sent_ok svc w ]) ∨
  (job_succeeds svc w ∧ worker_body svc w = [ sent_ok svc w ]).
Proof.
  unfold sent_ok, worker_body, summary_of, job_succeeds.
  destruct (PromptBuilder svc (w_result w)) as [prompt|e] eqn:EP.
  - destruct (CreateChatCompletion svc (w_index w) prompt) as [note [e|]] eqn:EC;
      simpl.
    + right; left. eauto.
    + right; right. split; [|done]. exists prompt. by rewrite EC.
  - left. eauto.
Qed.

Lemma elem_of_jobs w results :
  w ∈ jobs results ↔ results !! w_index w = Some (w_result w).
Proof.
  unfold jobs. rewrite elem_of_lookup_imap. split.
  - intros (i & x & -> & H). done.
  - intros H. exists (w_index w), (w_result w). split; [by destruct w | done].
Qed.

Lemma jobs_length results : length (jobs results) = length results.
Proof. apply length_imap. Qed.

Lemma jobs_indices results :
  w_index <$> jobs results = seq 0 (length results).
Proof.
  apply list_eq. intros i. unfold jobs.
  rewrite list_lookup_fmap, list_lookup_imap.
  destruct (results !! i) as [x|] eqn:E; simpl.
  - rewrite lookup_seq_lt; [done | by eapply lookup_lt_Some].
  - rewrite lookup_seq_ge; [done | by apply lookup_ge_None].
Qed.

Lemma jobs_index_inj results w1 w2 :
  w1 ∈ jobs results → w2 ∈ jobs results → w_index w1 = w_index w2 → w1 = w2.
Proof.
  rewrite !elem_of_jobs. intros H1 H2 E. rewrite E in H1.
  destruct w1, w2; simpl in *. congruence.
Qed.

Lemma worker_body_index w r : r ∈ worker_body svc w → index r = w_index w.
Proof.
  destruct (worker_body_cases w) as [[e ->]|[[e ->]|[_ ->]]];
    rewrite ?elem_of_cons, elem_of_nil; intros H;
    repeat destruct H as [->|H]; done.
Qed.

Lemma worker_body_length w : 1 ≤ length (worker_body svc w) ≤ 2.
Proof.
  destruct (worker_body_cases w) as [[e ->]|[[e ->]|[_ ->]]]; simpl; lia.
Qed.

Lemma concat_insert {A} (l : list (list A)) k x y :
  l !! k = Some y → concat (<[k:=x]> l) ++ y ≡ₚ x ++ concat l.
Proof.
  intros H. rewrite insert_take_drop by (by eapply lookup_lt_Some).
  rewrite <- (take_drop_middle l k y H) at 3.
  rewrite !concat_app. simpl. solve_Permutation.
Qed.

Lemma concat_insert_cons {A} (l : list (list A)) k r rs :
  l !! k = Some (r :: rs) → concat l ≡ₚ r :: concat (<[k:=rs]> l).
Proof.
  intros H. rewrite insert_take_drop by (by eapply lookup_lt_Some).
  rewrite <- (take_drop_middle l k _ H) at 1.
  rewrite !concat_app. simpl. solve_Permutation.
Qed.

Lemma concat_replicate_nil {A} n : concat (replicate n (@nil A)) = [].
Proof. induction n; simpl; done. Qed.

Lemma failed_app_l chan more : failed chan → failed (chan ++ more).
Proof. intros (r & Hr & E). exists r. rewrite elem_of_app. eauto. Qed.

Lemma failed_snoc chan r : has_err r = true → failed (chan ++ [r]).
Proof.
  intros E. exists r. rewrite elem_of_app, list_elem_of_singleton. eauto.
Qed.

Lemma spawn_inv results : pool_inv svc results (spawn results).
Proof.
  split; simpl.
  - by exists [].
  - by rewrite concat_replicate_nil.
  - intros k rs H. apply lookup_replicate in H as [-> _]. by left.
  - intros pre r post H. by destruct pre.
Qed.

Lemma worker_step_inv results p k :
  pool_inv svc results p → pool_inv svc results (worker_step svc p k).
Proof.
  intros [Hsuf Hperm Hpend Hord]. unfold worker_step.
  destruct (pending p !! k) as [[|r rs]|] eqn:Ek; [|split; simpl|by split].
  - destruct (workChan p) as [|w rest] eqn:Ew; [by split; rewrite ?Ew|].
    destruct Hsuf as [taken Hsuf].
    assert (Hw : w ∈ jobs results).
    { rewrite Hsuf, elem_of_app, elem_of_cons. eauto. }
    split; simpl.
    + exists (taken ++ [w]). by rewrite <- app_assoc.
    + rewrite <- Hperm. unfold emitted. rewrite bind_cons.
      pose proof (concat_insert (pending p) k (worker_body svc w) [] Ek) as HP.
      rewrite app_nil_r in HP. rewrite HP. solve_Permutation.
    + intros k' rs H. destruct (decide (k = k')) as [<-|Hne].
      * rewrite list_lookup_insert_eq in H by (by eapply lookup_lt_Some).
        right; left. exists w. split; [done | congruence].
      * rewrite list_lookup_insert_ne in H by done. eauto.
    + done.
  - done.
  - rewrite <- Hperm. rewrite (concat_insert_cons (pending p) k r rs Ek).
    solve_Permutation.
  - intros k' rs' H. destruct (decide (k = k')) as [<-|Hne].
    + rewrite list_lookup_insert_eq in H by (by eapply lookup_lt_Some).
      injection H as <-.
      destruct (Hpend k _ Ek) as [?|[(w & Hw & E)|Hf]]; [done| |].
      * destruct (worker_body_cases w) as [[e E']|[[e E']|[_ E']]];
          rewrite E' in E; injection E as ? ?; subst.
        -- by left.
        -- right; right. by apply failed_snoc.
        -- by left.
      * right; right. by apply failed_app_l.
    + rewrite list_lookup_insert_ne in H by done.
      destruct (Hpend k' _ H) as [?|[?|Hf]]; eauto using failed_app_l.
  - intros pre r' post H Hr'.
    destruct post as [|x post _] using rev_ind.
    + apply app_inj_tail in H as [<- <-].
      destruct (Hpend k _ Ek) as [?|[(w & Hw & E)|Hf]]; [done| |by right].
      left. exists w. split; [done|].
      destruct (worker_body_cases w) as [[e E']|[[e E']|[_ E']]];
        rewrite E' in E; injection E as ? ?; subst; try done.
    + rewrite app_comm_cons, app_assoc in H.
      apply app_inj_tail in H as [H ->]. symmetry in H. eauto.
Qed.

Lemma run_pool_inv results sched p :
  pool_inv svc results p → pool_inv svc results (run_pool svc sched p).
Proof.
  revert p. induction sched as [|k sched IH]; intros p Hp; [done|].
  apply (IH (worker_step svc p k)). by apply worker_step_inv.
Qed.

(** *** The orchestrator's loop *)

Lemma collect_done n chan notes :
  n ≤ length chan →
  (∀ r, r ∈ take n chan → has_err r = false ∧ index r < length notes) →
  collect n chan notes = (Done (foldl put notes (take n chan)), drop n chan).
Proof.
  revert chan notes. induction n as [|n IH]; intros chan notes Hn Hall.
  - by rewrite take_0, drop_0.
  - destruct chan as [|r chan]; simpl in Hn; [lia|].
    destruct (Hall r) as [Hr Hi]; [simpl; left|].
    simpl. unfold has_err in Hr. destruct (err r); [done|].
    rewrite decide_True by done. rewrite IH; [done | lia |].
    intros x Hx. rewrite length_insert. apply Hall. simpl. by right.
Qed.

Lemma collect_fail n pre r post e notes :
  length pre < n →
  (∀ x, x ∈ pre → has_err x = false ∧ index x < length notes) →
  err r = Some e →
  collect n (pre ++ r :: post) notes = (Fail e, post).
Proof.
  revert n notes. induction pre as [|x pre IH]; intros n notes Hn Hall Hr.
  - destruct n; [simpl in Hn; lia|]. simpl. by rewrite Hr.
  - destruct n; simpl in Hn; [lia|].
    destruct (Hall x) as [Hx Hi]; [left|].
    simpl. unfold has_err in Hx. destruct (err x); [done|].
    rewrite decide_True by done. apply IH; [lia | | done].
    intros y Hy. rewrite length_insert. apply Hall. by right.
Qed.

Lemma collect_blocked n chan notes :
  length chan < n →
  (∀ r, r ∈ chan → has_err r = false ∧ index r < length notes) →
  collect n chan notes = (Blocked, []).
Proof.
  revert n notes. induction chan as [|r chan IH]; intros n notes Hn Hall.
  - destruct n; [simpl in Hn; lia | done].
  - destruct n; simpl in Hn; [lia|].
    destruct (Hall r) as [Hr Hi]; [left|].
    simpl. unfold has_err in Hr. destruct (err r); [done|].
    rewrite decide_True by done. apply IH; [lia|].
    intros y Hy. rewrite length_insert. apply Hall. by right.
Qed.

Lemma first_error (chan : list resultItem) :
  (∀ r, r ∈ chan → has_err r = false) ∨
  (∃ pre r post e, chan = pre ++ r :: post ∧
     (∀ x, x ∈ pre → has_err x = false) ∧ err r = Some e).
Proof.
  induction chan as [|x chan IH].
  - left. intros r Hr. by apply elem_of_nil in Hr.
  - destruct (err x) as [e|] eqn:Ex.
    + right. exists [], x, chan, e. split; [done|]. split; [|done].
      intros y Hy. by apply elem_of_nil in Hy.
    + destruct IH as [IH|(pre & r & post & e & -> & Hpre & Hr)].
      * left. intros r [->|Hr]%elem_of_cons; [|by apply IH].
        unfold has_err. by rewrite Ex.
      * right. exists (x :: pre), r, post, e. split; [done|]. split; [|done].
        intros y [->|Hy]%elem_of_cons; [|by apply Hpre].
        unfold has_err. by rewrite Ex.
Qed.

Lemma foldl_put_length notes chan :
  length (foldl put notes chan) = length notes.
Proof.
  revert notes. induction chan as [|r chan IH]; intros notes; [done|].
  simpl. rewrite IH. apply length_insert.
Qed.

(** The slot of a job holds what the job sent, whatever the arrival order. *)
Lemma foldl_put_lookup chan notes i s :
  i < length notes →
  (∃ r, r ∈ chan ∧ index r = i) →
  (∀ r, r ∈ chan → index r = i → summary r = s) →
  foldl put notes chan !! i = Some s.
Proof.
  intros Hi. induction chan as [|x chan IH] using rev_ind.
  - intros (r & Hr & _). by apply elem_of_nil in Hr.
  - intros (r & Hr & Er) Hall. rewrite foldl_snoc. unfold put at 1.
    destruct (decide (index x = i)) as [Ex|Ex].
    + rewrite Ex, list_lookup_insert_eq by (by rewrite foldl_put_length).
      f_equal. apply Hall; [|done]. rewrite elem_of_app, list_elem_of_singleton.
      by right.
    + rewrite list_lookup_insert_ne by done. apply IH.
      * apply elem_of_app in Hr as [Hr|Hr%list_elem_of_singleton]; [eauto|].
        congruence.
      * intros y Hy. apply Hall. rewrite elem_of_app. by left.
Qed.

(** *** What the invariant gives *)

Lemma emitted_index results r :
  r ∈ emitted svc (jobs results) → index r < length results.
Proof.
  unfold emitted. rewrite list_elem_of_bind. intros (w & Hr & Hw).
  rewrite (worker_body_index w r Hr). apply elem_of_jobs in Hw.
  by eapply lookup_lt_Some.
Qed.

Lemma chan_submseteq results p :
  pool_inv svc results p → resultChan p ⊆+ emitted svc (jobs results).
Proof.
  intros Hp. rewrite <- (inv_perm _ _ _ Hp). by apply submseteq_inserts_r.
Qed.

Lemma chan_index results p r :
  pool_inv svc results p → r ∈ resultChan p → index r < length results.
Proof.
  intros Hp Hr. apply emitted_index.
  eapply elem_of_submseteq; [done | by apply chan_submseteq].
Qed.

Lemma emitted_length ws : length ws ≤ length (emitted svc ws).
Proof.
  induction ws as [|w ws IH]; [done|]. unfold emitted in *.
  rewrite bind_cons, length_app. pose proof (worker_body_length w). simpl. lia.
Qed.

Lemma quiescent_pending (pend : list (list resultItem)) :
  forallb (λ rs, match rs with [] => true | _ => false end) pend = true →
  concat pend = [].
Proof.
  induction pend as [|[|r rs] pend IH]; simpl; [done | done | done].
Qed.

Lemma quiescent_chan results p :
  pool_inv svc results p → quiescent p = true →
  resultChan p ≡ₚ emitted svc (jobs results).
Proof.
  intros Hp Hq. rewrite <- (inv_perm _ _ _ Hp). unfold quiescent in Hq.
  destruct (workChan p); [|done]. rewrite (quiescent_pending _ Hq).
  by rewrite !app_nil_r.
Qed.

Lemma filter_submseteq {A} (P : A → Prop) `{∀ x, Decision (P x)} l1 l2 :
  l1 ⊆+ l2 → filter P l1 ⊆+ filter P l2.
Proof.
  induction 1 as [|x l1 l2 _ IH|x y l|x l1 l2 _ IH|l1 l2 l3 _ IH1 _ IH2];
    rewrite ?filter_cons; repeat case_decide;
    try (by constructor); try done.
  by etrans.
Qed.

Lemma filter_all {A} (P : A → Prop) `{∀ x, Decision (P x)} (l : list A) :
  (∀ x, x ∈ l → P x) → filter P l = l.
Proof.
  induction l as [|x l IH]; intros Hall; [done|].
  rewrite filter_cons_True by (apply Hall; left).
  f_equal. apply IH. intros y Hy. apply Hall. by right.
Qed.

(** Every job sends at most one value that is not an error. *)
Lemma ok_indices ws :
  index <$> filter (λ r, has_err r = false) (emitted svc ws) ⊆+ w_index <$> ws.
Proof.
  induction ws as [|w ws IH]; [done|]. unfold emitted in *.
  rewrite bind_cons, filter_app, fmap_app, fmap_cons.
  change (w_index w :: (w_index <$> ws)) with ([w_index w] ++ (w_index <$> ws)).
  apply submseteq_app; [|done].
  destruct (worker_body_cases w) as [[e ->]|[[e ->]|[_ ->]]];
    rewrite ?filter_cons, ?filter_nil; repeat case_decide;
    try done; simpl; by constructor.
Qed.

(** The error of a failing job is among the first [len(results)] arrivals:
    that many arrivals without an error would be one per job, and the
    failing job sends its error first. *)
Lemma error_arrives results p w :
  pool_inv svc results p → w ∈ jobs results → job_fails svc w →
  length results ≤ length (resultChan p) →
  failed (take (length results) (resultChan p)).
Proof.
  intros Hp Hw Hfail Hlen.
  set (pre := take (length results) (resultChan p)).
  destruct (first_error pre) as [Hall|(a & r & b & e & E & _ & Hr)]; last first.
  { exists r. split; [rewrite E, elem_of_app, elem_of_cons; eauto|].
    unfold has_err. by rewrite Hr. }
  exfalso.
  assert (Hsub : index <$> pre ⊆+ seq 0 (length results)).
  { rewrite <- jobs_indices, <- ok_indices. apply fmap_submseteq.
    rewrite <- (filter_all (λ r, has_err r = false) pre Hall).
    apply filter_submseteq. etrans; [apply submseteq_take|].
    by apply chan_submseteq. }
  apply submseteq_length_Permutation in Hsub; last first.
  { rewrite length_fmap, length_seq. unfold pre. by rewrite length_take_le. }
  assert (Hin : w_index w ∈ index <$> pre).
  { rewrite Hsub, elem_of_seq. apply elem_of_jobs, lookup_lt_Some in Hw.
    lia. }
  apply list_elem_of_fmap in Hin as (r & Er & Hr).
  destruct (list_elem_of_split _ _ Hr) as (a & b & E).
  pose proof (take_drop (length results) (resultChan p)) as Hchan.
  fold pre in Hchan.
  rewrite E, <- app_assoc, <- app_comm_cons in Hchan. symmetry in Hchan.
  destruct (inv_order _ _ _ Hp _ _ _ Hchan (Hall r Hr))
    as [(w' & Hw' & Ew')|(x & Hx & Ex)].
  - assert (w' = w) as ->.
    { apply (jobs_index_inj results); [done | done |].
      rewrite Er. symmetry. apply worker_body_index. rewrite Ew'. by left. }
    destruct Hfail as (x & Hx & Ex). rewrite Ew' in Hx.
    apply list_elem_of_singleton in Hx as ->. rewrite (Hall r Hr) in Ex. done.
  - rewrite Hall in Ex; [done|]. rewrite E, elem_of_app. by left.
Qed.

(** *** Every batch can run to the end *)

Lemma concat_nonempty {A} (l : list (list A)) :
  concat l ≠ [] → ∃ k r rs, l !! k = Some (r :: rs).
Proof.
  induction l as [|[|r rs] l IH]; simpl; intros H; [done| |].
  - destruct (IH H) as (k & r & rs & E). by exists (S k), r, rs.
  - by exists 0, r, rs.
Qed.

Lemma concat_empty {A} (l : list (list A)) k x :
  concat l = [] → l !! k = Some x → x = [].
Proof.
  revert k. induction l as [|y l IH]; intros k H E; [done|].
  simpl in H. apply app_eq_nil in H as [-> H].
  destruct k; simpl in E; [congruence | eauto].
Qed.

Lemma concat_empty_forallb (l : list (list resultItem)) :
  concat l = [] →
  forallb (λ rs, match rs with [] => true | _ => false end) l = true.
Proof.
  induction l as [|y l IH]; intros H; [done|].
  simpl in H. apply app_eq_nil in H as [-> H]. simpl. auto.
Qed.

Lemma pool_progress p :
  pending p ≠ [] → quiescent p = false →
  ∃ k, steps_left (worker_step svc p k) < steps_left p.
Proof.
  intros Hw Hq. destruct (decide (concat (pending p) = [])) as [Hc|Hc].
  - pose proof (concat_empty_forallb _ Hc) as Hall.
    unfold quiescent in Hq.
    destruct (workChan p) as [|w rest] eqn:Ew; [congruence|].
    destruct (pending p) as [|x pend] eqn:Ep; [done|].
    pose proof (concat_empty _ 0 x Hc eq_refl) as ->.
    exists 0. unfold worker_step, steps_left. rewrite Ep, Ew. simpl.
    simpl in Hc. rewrite Hc, length_app.
    pose proof (worker_body_length w). simpl. lia.
  - destruct (concat_nonempty _ Hc) as (k & r & rs & E). exists k.
    unfold worker_step, steps_left. rewrite E. simpl.
    rewrite (concat_insert_cons _ _ _ _ E). simpl. lia.
Qed.

Lemma pool_terminates p :
  pending p ≠ [] → ∃ sched, quiescent (run_pool svc sched p) = true.
Proof.
  remember (steps_left p) as m eqn:Hm. revert p Hm.
  induction m as [m IH] using lt_wf_ind. intros p -> Hw.
  destruct (quiescent p) eqn:Hq; [by exists []|].
  destruct (pool_progress p Hw Hq) as [k Hk].
  destruct (IH _ Hk (worker_step svc p k) eq_refl) as [sched Hs].
  - intros E. apply Hw. apply (f_equal length) in E.
    rewrite worker_step_workers in E. by destruct (pending p).
  - by exists (k :: sched).
Qed.

Lemma batch_terminates results :
  ∃ sched, quiescent (run_pool svc sched (spawn results)) = true.
Proof.
  destruct results as [|x results]; [by exists []|].
  by apply pool_terminates.
Qed.

(** *** Batches without a failing job *)

Lemma worker_body_succeeds w :
  job_succeeds svc w → worker_body svc w = [ sent_ok svc w ].
Proof.
  intros (prompt & EP & EC). unfold sent_ok, worker_body, summary_of.
  rewrite EP.
  destruct (CreateChatCompletion svc (w_index w) prompt) as [note e].
  simpl in EC. by subst.
Qed.

Lemma emitted_succeed ws :
  (∀ w, w ∈ ws → job_succeeds svc w) →
  emitted svc ws = sent_ok svc <$> ws.
Proof.
  induction ws as [|w ws IH]; intros Hall; [done|]. unfold emitted in *.
  rewrite bind_cons, fmap_cons, worker_body_succeeds by (apply Hall; left).
  simpl. f_equal. apply IH. intros w' Hw'. apply Hall. by right.
Qed.

Lemma quiescent_length results p :
  pool_inv svc results p → quiescent p = true →
  length results ≤ length (resultChan p).
Proof.
  intros Hp Hq. rewrite (quiescent_chan _ _ Hp Hq), <- (jobs_length results).
  apply emitted_length.
Qed.

Lemma chan_all_succeed results p :
  (∀ w, w ∈ jobs results → job_succeeds svc w) →
  pool_inv svc results p →
  resultChan p ⊆+ sent_ok svc <$> jobs results.
Proof.
  intros Hall Hp. rewrite <- (emitted_succeed _ Hall). by apply chan_submseteq.
Qed.

Lemma collect_all_succeed results p :
  (∀ w, w ∈ jobs results → job_succeeds svc w) →
  pool_inv svc results p → length results ≤ length (resultChan p) →
  collect (length results) (resultChan p) (replicate (length results) "")
  = (Done (summary_of svc <$> jobs results), []).
Proof.
  intros Hall Hp Hle.
  pose proof (chan_all_succeed _ _ Hall Hp) as Hchan.
  apply submseteq_length_Permutation in Hchan;
    [|by rewrite length_fmap, jobs_length].
  assert (Hlen : length (resultChan p) = length results).
  { by rewrite Hchan, length_fmap, jobs_length. }
  assert (Hr : ∀ r, r ∈ resultChan p →
            ∃ w, w ∈ jobs results ∧ index r = w_index w ∧
                 summary r = summary_of svc w ∧ has_err r = false).
  { intros r. rewrite Hchan, list_elem_of_fmap. intros (w & -> & Hw). eauto. }
  rewrite collect_done; [|lia|]; last first.
  { intros r Hr'%elem_of_take. destruct Hr' as (i & Hr'%list_elem_of_lookup_2 & _).
    destruct (Hr r Hr') as (w & Hw & Ei & _ & Ee). split; [done|].
    rewrite length_replicate, Ei. apply elem_of_jobs in Hw.
    by eapply lookup_lt_Some. }
  rewrite take_ge, drop_ge by lia. f_equal. f_equal.
  apply list_eq. intros i. rewrite list_lookup_fmap.
  destruct (jobs results !! i) as [w|] eqn:Ew; simpl.
  - pose proof Ew as Ew'. unfold jobs in Ew'.
    apply list_lookup_imap_Some in Ew' as (raw & Eraw & ->).
    apply foldl_put_lookup.
    + rewrite length_replicate. by eapply lookup_lt_Some.
    + exists (sent_ok svc {| w_index := i; w_result := raw |}).
      split; [|done]. rewrite Hchan. apply list_elem_of_fmap_2.
      by eapply list_elem_of_lookup_2.
    + intros r Hr' Ei. destruct (Hr r Hr') as (w & Hw & Ei' & -> & _).
      f_equal. apply (jobs_index_inj results); [done | |].
      * by eapply list_elem_of_lookup_2.
      * simpl. congruence.
  - apply lookup_ge_None. rewrite foldl_put_length, length_replicate.
    apply lookup_ge_None in Ew. by rewrite jobs_length in Ew.
Qed.

(** *** Batches with a failing job *)

Lemma collect_some_fails results p w :
  w ∈ jobs results → job_fails svc w →
  pool_inv svc results p →
  length results ≤ length (resultChan p) →
  ∃ pre r post e,
    resultChan p = pre ++ r :: post ∧ length pre < length results ∧
    (∀ x, x ∈ pre → has_err x = false) ∧ err r = Some e ∧
    collect (length results) (resultChan p) (replicate (length results) "")
    = (Fail e, post).
Proof.
  intros Hw Hfail Hp Hlen.
  destruct (error_arrives _ _ _ Hp Hw Hfail Hlen) as (x & Hx & Ex).
  destruct (first_error (resultChan p))
    as [Hall|(pre & r & post & e & E & Hpre & Hr)].
  { rewrite Hall in Ex; [done|].
    eapply elem_of_submseteq; [done | apply submseteq_take]. }
  assert (Hlt : length pre < length results).
  { destruct (decide (length pre < length results)) as [|Hge]; [done|].
    rewrite E, take_app_le in Hx by lia. rewrite Hpre in Ex; [done|].
    eapply elem_of_submseteq; [done | apply submseteq_take]. }
  exists pre, r, post, e. repeat split; try done.
  rewrite E. apply collect_fail; [done | | done].
  intros y Hy. split; [by apply Hpre|]. rewrite length_replicate.
  apply (chan_index results p); [done|]. rewrite E, elem_of_app. by left.
Qed.

(** *** How the orchestrator's loop ends *)

Lemma collect_cases results p :
  pool_inv svc results p →
  collect (length results) (resultChan p) (replicate (length results) "")
    = (Blocked, []) ∨
  (∃ notes,
     collect (length results) (resultChan p) (replicate (length results) "")
     = (Done notes, drop (length results) (resultChan p)) ∧
     length results ≤ length (resultChan p)) ∨
  (∃ pre r post e,
     resultChan p = pre ++ r :: post ∧ length pre < length results ∧
     (∀ x, x ∈ pre → has_err x = false) ∧ err r = Some e ∧
     collect (length results) (resultChan p) (replicate (length results) "")
     = (Fail e, post)).
Proof.
  intros Hp.
  assert (Hidx : ∀ r, r ∈ resultChan p →
            index r < length (replicate (length results) "")).
  { intros r Hr. rewrite length_replicate. by eapply chan_index. }
  assert (Htake : ∀ n r, r ∈ take n (resultChan p) → r ∈ resultChan p).
  { intros n r Hr. eapply elem_of_submseteq; [done | apply submseteq_take]. }
  destruct (first_error (resultChan p))
    as [Hall|(pre & r & post & e & E & Hpre & Hr)].
  - destruct (decide (length results ≤ length (resultChan p))) as [Hle|Hgt].
    + right; left. eexists. split; [|done]. apply collect_done; [done|].
      intros y Hy%Htake. split; [by apply Hall | by apply Hidx].
    + left. apply collect_blocked; [lia|].
      intros y Hy. split; [by apply Hall | by apply Hidx].
  - destruct (decide (length pre < length results)) as [Hlt|Hge].
    + right; right. exists pre, r, post, e. repeat split; try done.
      rewrite E. apply collect_fail; [done | | done].
      intros y Hy. split; [by apply Hpre|]. apply Hidx.
      rewrite E, elem_of_app. by left.
    + right; left. eexists. split.
      * apply collect_done.
        -- rewrite E, length_app. lia.
        -- intros y Hy. split; [|by eapply Hidx, Htake]. apply Hpre.
           rewrite E, take_app_le in Hy by lia.
           eapply elem_of_submseteq; [done | apply submseteq_take].
      * rewrite E, length_app. lia.
Qed.

End PoolFacts.

(** ** Claims about the summarizer *)

(** C9: the pool of a batch of N documents has exactly min(N, 5) workers
    from the moment it is spawned and under every schedule, hence never more
    than 5. *)
Theorem worker_count_is_min svc sched results :
  length (Summarizer.pending
            (Summarizer.run_pool svc sched (Summarizer.spawn results)))
  = Nat.min (length results) 5 ∧
  length (Summarizer.pending
            (Summarizer.run_pool svc sched (Summarizer.spawn results))) ≤ 5.
Proof.
  rewrite run_pool_workers. simpl. rewrite length_replicate.
  unfold Summarizer.numWorkers. lia.
Qed.

(** C2: when every job of a non-empty batch succeeds, then whatever the
    order in which the workers finish, the call, when it returns, returns the
    summaries joined in the order of the input documents and leaves the old
    compressed notes followed by the N summaries in job-index order; it does
    return once the workers have run to the end. *)
Theorem summaries_in_input_order svc sched results notes :
  results ≠ [] →
  (∀ w, w ∈ Summarizer.jobs results → Summarizer.job_succeeds svc w) →
  (Summarizer.summarizeWebSearchResult svc sched results notes
   = (Blocked, notes) ∨
   Summarizer.summarizeWebSearchResult svc sched results notes
   = (Done (Join (Summarizer.summary_of svc <$> Summarizer.jobs results) nl),
      notes ++ (Summarizer.summary_of svc <$> Summarizer.jobs results))) ∧
  (Summarizer.quiescent
     (Summarizer.run_pool svc sched (Summarizer.spawn results)) = true →
   Summarizer.summarizeWebSearchResult svc sched results notes
   = (Done (Join (Summarizer.summary_of svc <$> Summarizer.jobs results) nl),
      notes ++ (Summarizer.summary_of svc <$> Summarizer.jobs results))) ∧
  length (notes ++ (Summarizer.summary_of svc <$> Summarizer.jobs results))
  = length notes + length results.
Proof.
  intros Hne Hall.
  pose proof (run_pool_inv svc _ sched _ (spawn_inv svc results)) as Hp.
  assert (Hret : length results
                 ≤ length (Summarizer.resultChan
                             (Summarizer.run_pool svc sched
                                (Summarizer.spawn results))) →
            Summarizer.summarizeWebSearchResult svc sched results notes
            = (Done (Join (Summarizer.summary_of svc
                             <$> Summarizer.jobs results) nl),
               notes ++ (Summarizer.summary_of svc
                           <$> Summarizer.jobs results))).
  { intros Hle. unfold Summarizer.summarizeWebSearchResult.
    destruct results as [|x results]; [done|].
    by rewrite (collect_all_succeed svc _ _ Hall Hp Hle). }
  split; [|split].
  - destruct (decide (length results
                      ≤ length (Summarizer.resultChan
                                  (Summarizer.run_pool svc sched
                                     (Summarizer.spawn results)))))
      as [Hle|Hgt]; [right; by apply Hret|left].
    unfold Summarizer.summarizeWebSearchResult.
    destruct results as [|x results]; [done|].
    rewrite collect_blocked; [done | lia |].
    intros r Hr. split.
    + eapply elem_of_submseteq in Hr; [|by apply (chan_all_succeed svc)].
      by apply list_elem_of_fmap in Hr as (w & -> & _).
    + rewrite length_replicate. by eapply (chan_index svc).
  - intros Hq. by apply Hret, (quiescent_length svc).
  - by rewrite length_app, length_fmap, jobs_length.
Qed.

Lemma summaries_in_input_order_witness :
  Summarizer.summarizeWebSearchResult Stub.summarizer Stub.out_of_order
    Stub.docs ["earlier note"]
  = (Done (Join (Summarizer.summary_of Stub.summarizer
                   <$> Summarizer.jobs Stub.docs) nl),
     ["earlier note"] ++ (Summarizer.summary_of Stub.summarizer
                            <$> Summarizer.jobs Stub.docs)).
Proof.
  apply (summaries_in_input_order Stub.summarizer Stub.out_of_order Stub.docs).
  - discriminate.
  - intros w _. exists (Summarizer.w_result w). split; reflexivity.
  - reflexivity.
Defined.

(** C3: a call that returns an error leaves the compressed notes as they
    were; an empty input is an error; and when some job of the batch fails,
    then whatever the order of arrival the call never returns a result: when
    it returns, it returns an error, and it does return once the workers
    have run to the end. *)
Theorem error_leaves_notes_unchanged svc sched results notes :
  (∀ e notes',
     Summarizer.summarizeWebSearchResult svc sched results notes
     = (Fail e, notes') → notes' = notes) ∧
  (results = [] ∨
   (∃ w, w ∈ Summarizer.jobs results ∧ Summarizer.job_fails svc w) →
   (Summarizer.summarizeWebSearchResult svc sched results notes
    = (Blocked, notes) ∨
    ∃ e, Summarizer.summarizeWebSearchResult svc sched results notes
         = (Fail e, notes)) ∧
   (Summarizer.quiescent
      (Summarizer.run_pool svc sched (Summarizer.spawn results)) = true →
    ∃ e, Summarizer.summarizeWebSearchResult svc sched results notes
         = (Fail e, notes))).
Proof.
  split.
  - intros e notes'. unfold Summarizer.summarizeWebSearchResult.
    destruct results as [|x results]; [congruence|].
    destruct (fst _); congruence.
  - intros Hin. unfold Summarizer.summarizeWebSearchResult.
    destruct results as [|x results]; [split; [right|intros _]; by eexists|].
    destruct Hin as [?|(w & Hw & Hfail)]; [done|].
    pose proof (run_pool_inv svc _ sched _ (spawn_inv svc (x :: results))) as Hp.
    pose proof (collect_some_fails svc _ _ w Hw Hfail Hp) as Hsome.
    split.
    + destruct (collect_cases svc _ _ Hp)
        as [E|[(ns & _ & Hle)|(pre & r & post & e & _ & _ & _ & _ & E)]].
      * left. by rewrite E.
      * right. destruct (Hsome Hle) as (pre & r & post & e & _ & _ & _ & _ & E).
        rewrite E. by exists e.
      * right. rewrite E. by exists e.
    + intros Hq.
      destruct (Hsome (quiescent_length svc _ _ Hp Hq))
        as (pre & r & post & e & _ & _ & _ & _ & E).
      rewrite E. by exists e.
Qed.

Lemma error_leaves_notes_unchanged_witness :
  ∃ e, Summarizer.summarizeWebSearchResult Stub.summarizer_failing
         Stub.error_last Stub.docs ["earlier note"]
       = (Fail e, ["earlier note"]).
Proof.
  apply (error_leaves_notes_unchanged Stub.summarizer_failing Stub.error_last
           Stub.docs ["earlier note"]).
  - right. exists {| Summarizer.w_index := 0; Summarizer.w_result := "doc-A" |}.
    split; [left|]. eexists. split; [left|]. reflexivity.
  - reflexivity.
Defined.

(** C4, as the program has it: a job whose prompt and completion succeed
    sends exactly one value, and so does a job whose prompt cannot be built;
    the orchestrator receives exactly N values when it returns without error,
    and when it returns an error it has stopped at the first error that
    arrived, leaving the later values in the channel. *)
Theorem orchestrator_stops_at_first_error svc sched results notes :
  (∀ w, Summarizer.job_succeeds svc w →
        length (Summarizer.worker_body svc w) = 1) ∧
  (∀ w e, Summarizer.PromptBuilder svc (Summarizer.w_result w) = Err e →
          length (Summarizer.worker_body svc w) = 1) ∧
  (∀ s, fst (Summarizer.summarizeWebSearchResult svc sched results notes)
        = Done s →
        Summarizer.received svc sched results = length results) ∧
  (∀ e, fst (Summarizer.summarizeWebSearchResult svc sched results notes)
        = Fail e →
        results = [] ∨
        ∃ pre r post,
          Summarizer.resultChan
            (Summarizer.run_pool svc sched (Summarizer.spawn results))
          = pre ++ r :: post ∧
          length pre < length results ∧
          (∀ x, x ∈ pre → Summarizer.has_err x = false) ∧
          Summarizer.err r = Some e ∧
          Summarizer.received svc sched results = length pre + 1).
Proof.
  split; [|split].
  - intros w Hw. by rewrite worker_body_succeeds.
  - intros w e E. unfold Summarizer.worker_body. by rewrite E.
  - destruct results as [|x results]; [split; [done | by left]|].
    pose proof (run_pool_inv svc _ sched _ (spawn_inv svc (x :: results))) as Hp.
    unfold Summarizer.summarizeWebSearchResult, Summarizer.received.
    destruct (collect_cases svc _ _ Hp)
      as [E|[(ns & E & Hle)|(pre & r & post & e & Ec & Hlt & Hpre & Hr & E)]];
      rewrite E; cbn [fst snd]; (split; [intros s Hs|intros e' He']);
      try discriminate.
    + rewrite length_drop. lia.
    + right. injection He' as <-. exists pre, r, post. repeat split; try done.
      rewrite Ec, length_app. simpl. lia.
Qed.

Lemma orchestrator_stops_at_first_error_witness :
  Stub.docs = [] ∨
  ∃ pre r post,
    Summarizer.resultChan
      (Summarizer.run_pool Stub.summarizer_failing Stub.error_last
         (Summarizer.spawn Stub.docs))
    = pre ++ r :: post ∧
    length pre < length Stub.docs ∧
    (∀ x, x ∈ pre → Summarizer.has_err x = false) ∧
    Summarizer.err r = Some "failed to summarize: rate limited" ∧
    Summarizer.received Stub.summarizer_failing Stub.error_last Stub.docs
    = length pre + 1.
Proof.
  apply (orchestrator_stops_at_first_error Stub.summarizer_failing
           Stub.error_last Stub.docs []).
  reflexivity.
Defined.

(** C4 as stated fails: job 0 of three sends two values, and the
    orchestrator returns the error after receiving one value, not three. *)
Lemma results_not_drained :
  length (Summarizer.worker_body Stub.summarizer_failing
            {| Summarizer.w_index := 0; Summarizer.w_result := "doc-A" |}) = 2 ∧
  Summarizer.quiescent
    (Summarizer.run_pool Stub.summarizer_failing Stub.one_worker
       (Summarizer.spawn Stub.docs)) = true ∧
  Summarizer.summarizeWebSearchResult Stub.summarizer_failing Stub.one_worker
    Stub.docs []
  = (Fail "failed to summarize: rate limited", []) ∧
  Summarizer.received Stub.summarizer_failing Stub.one_worker Stub.docs = 1 ∧
  length Stub.docs = 3.
Proof. repeat split; reflexivity. Qed.

(** ** The web research workflow *)

Section ResearchFacts.
Import Research.
Variable svc : Services.

#[local] Instance grows_preorder : PreOrder grows.
Proof.
  split.
  - intros st. unfold grows. reflexivity.
  - intros st1 st2 st3 H1 H2. unfold grows in *. by etrans.
Qed.

Lemma silent_append msg : silent (append msg).
Proof. apply silent_modify. Qed.

Lemma silent_summarize results : silent (summarize svc results).
Proof.
  intros st. unfold summarize. destruct (batch svc (messages st)) as [sm sched].
  by destruct (Summarizer.summarizeWebSearchResult _ _ _ _).
Qed.

Lemma silent_on_error {A} prefix (m : M State A) :
  silent m → silent (on_error prefix m).
Proof.
  intros Hm. apply silent_bind; [by apply silent_attempt|].
  intros r. apply silent_call_wrapped.
Qed.

Lemma grows_append msg : preserves grows (append msg).
Proof.
  apply preserves_modify; []. intros st. unfold grows. simpl.
  by apply prefix_app_r.
Qed.

Lemma grows_summarize results : preserves grows (summarize svc results).
Proof.
  intros st. unfold summarize. destruct (batch svc (messages st)) as [sm sched].
  destruct (Summarizer.summarizeWebSearchResult _ _ _ _). simpl.
  unfold grows. reflexivity.
Qed.

Ltac grows_step :=
  first
    [ apply (preserves_bind grows); [|intros ?]
    | apply (preserves_ret grows) | apply (preserves_get grows)
    | apply (preserves_emit grows) | apply (preserves_stop grows)
    | apply (preserves_call grows) | apply (preserves_call_wrapped grows)
    | apply (preserves_attempt grows)
    | apply grows_append | apply grows_summarize ].

Lemma grows_dispatch toolCall : preserves grows (dispatch svc toolCall).
Proof.
  unfold dispatch, on_error. grows_step; case_decide; repeat grows_step.
Qed.

Lemma grows_dispatch_all toolCalls : preserves grows (dispatch_all svc toolCalls).
Proof.
  induction toolCalls as [|toolCall rest IH]; simpl; grows_step.
  - apply grows_dispatch.
  - apply IH.
Qed.

Lemma grows_Execute : preserves grows (Execute svc).
Proof.
  unfold Execute. do 3 grows_step; try grows_step.
  match goal with
  | choices : list ChatCompletionMessage |- _ =>
      destruct choices as [|msg choices]; repeat grows_step
  end.
  case_decide; repeat grows_step. apply grows_dispatch_all.
Qed.

(** *** What an iteration does *)

Lemma dispatch_unknown toolCall st :
  ¬ known toolCall → dispatch svc toolCall st = (Done (), st, []).
Proof.
  intros H. unfold known in H. unfold dispatch.
  rewrite !decide_False by tauto. done.
Qed.

Lemma dispatch_all_unknown toolCalls st :
  Forall (λ toolCall, ¬ known toolCall) toolCalls →
  dispatch_all svc toolCalls st = (Done (), st, []).
Proof.
  induction 1 as [|toolCall rest H _ IH]; simpl; [done|].
  rewrite (bind_done _ _ _ _ _ _ (dispatch_unknown toolCall st H)).
  by rewrite IH.
Qed.

Lemma dispatch_all_app before after st :
  dispatch_all svc (before ++ after) st
  = (dispatch_all svc before;; dispatch_all svc after) st.
Proof.
  revert st. induction before as [|toolCall before IH]; intros st; simpl.
  - by rewrite ret_bind.
  - unfold mbind, M_bind.
    destruct (dispatch svc toolCall st) as [[[[]|e| | |] s1] tr1]; try done.
    rewrite IH. unfold mbind, M_bind.
    destruct (dispatch_all svc before s1) as [[[[]|e| | |] s2] tr2]; try done.
    destruct (dispatch_all svc after s2) as [[o s3] tr3].
    by rewrite app_assoc.
Qed.

(** A search is announced once, before anything else; nothing else is. *)
Lemma dispatch_trace toolCall st :
  snd (dispatch svc toolCall st)
  = if decide (is_search toolCall)
    then [Searches (fn_Arguments (tc_Function toolCall))] else [].
Proof.
  unfold dispatch, is_search.
  destruct (decide (fn_Name (tc_Function toolCall) = "search_tool")) as [E|E].
  - rewrite (decide_False (P := _ = "reflection_tool"))
      by (rewrite E; discriminate).
    match goal with |- snd ((?m ≫= _) st) = _ => set (search := m) end.
    assert (Hs : snd (search st)
                 = [Searches (fn_Arguments (tc_Function toolCall))]).
    { unfold search. rewrite get_bind, emit_bind. simpl. f_equal.
      match goal with |- snd (?m st) = _ => assert (Hrest : silent m) end.
      { apply silent_bind; [apply silent_call_wrapped|intros results].
        apply silent_bind; [|intros ?; apply silent_append].
        apply silent_on_error, silent_summarize. }
      apply Hrest. }
    unfold mbind, M_bind.
    destruct (search st) as [[[[]|e| | |] s1] tr1]; simpl in *; try done.
    by rewrite app_nil_r.
  - rewrite ret_bind. case_decide; [|done].
    match goal with |- snd (?m st) = _ => assert (Hrest : silent m) end.
    { apply silent_bind; [apply silent_call|intros ?; apply silent_append]. }
    apply Hrest.
Qed.

Lemma dispatch_all_searches toolCalls st st' tr :
  dispatch_all svc toolCalls st = (Done (), st', tr) →
  searches tr
  = (λ toolCall, fn_Arguments (tc_Function toolCall))
      <$> filter is_search toolCalls.
Proof.
  revert st tr. induction toolCalls as [|toolCall rest IH]; intros st tr; simpl.
  - by intros [= <- <-].
  - intros (a & s1 & tr1 & tr2 & E1 & E2 & ->)%bind_done_inv.
    pose proof (dispatch_trace toolCall st) as Ht. rewrite E1 in Ht.
    simpl in Ht. subst tr1. unfold searches in *. rewrite omap_app.
    rewrite (IH _ _ E2). rewrite filter_cons. by case_decide.
Qed.

Lemma Execute_done st resp cont st' tr :
  Execute svc st = (Done (resp, cont), st', tr) →
  ∃ prompt msg choices after,
    PromptBuilder svc (messages st) = Ok prompt ∧
    CreateChatCompletion svc (BuildConversationHistory prompt (messages st))
    = Ok (msg :: choices) ∧
    messages st' = messages st ++ msg :: after ∧
    resp = "" ∧
    cont = bool_decide (ToolCalls msg ≠ []) ∧
    searches tr
    = (λ toolCall, fn_Arguments (tc_Function toolCall))
        <$> filter is_search (ToolCalls msg).
Proof.
  unfold Execute. rewrite get_bind.
  destruct (PromptBuilder svc (messages st)) as [prompt|e] eqn:EP; [|done].
  simpl call. rewrite ret_bind.
  destruct (CreateChatCompletion svc _) as [[|msg choices]|e] eqn:EC;
    [done| |done].
  simpl call_wrapped. rewrite ret_bind. unfold append. rewrite modify_bind.
  intros H. exists prompt, msg, choices.
  case_decide as Hlen.
  - injection H as <- <- <- <-. exists [].
    destruct (ToolCalls msg); [|done]. repeat split; try done.
  - apply bind_done_inv in H as ([] & s1 & tr1 & tr2 & E1 & [= <- <- <- <-] & ->).
    match type of E1 with
    | _ _ _ ?s = _ => pose proof (grows_dispatch_all (ToolCalls msg) s) as Hg
    end.
    rewrite E1 in Hg.
    destruct Hg as [after Hg]. simpl in Hg. exists after.
    repeat split; try done.
    + by rewrite Hg, <- app_assoc.
    + rewrite bool_decide_eq_true_2; [done|]. by destruct (ToolCalls msg).
    + rewrite app_nil_r. by eapply dispatch_all_searches.
Qed.

End ResearchFacts.

(** ** Claims about the tool-call loop *)

(** C1, as the program has it: an iteration keeps no count of the searches.
    When it returns without error, every search the model's turn asked for
    has been dispatched, in the order of the turn, and it reports
    continuation exactly when the turn has a tool invocation. *)
Theorem every_requested_search_dispatched svc st resp cont st' tr :
  Research.Execute svc st = (Done (resp, cont), st', tr) →
  ∃ prompt msg choices,
    Research.PromptBuilder svc (Research.messages st) = Ok prompt ∧
    Research.CreateChatCompletion svc
      (BuildConversationHistory prompt (Research.messages st))
    = Ok (msg :: choices) ∧
    searches tr
    = (λ toolCall, fn_Arguments (tc_Function toolCall))
        <$> filter Research.is_search (ToolCalls msg) ∧
    cont = bool_decide (ToolCalls msg ≠ []).
Proof.
  intros (prompt & msg & choices & after & EP & EC & _ & _ & -> & Hs)%Execute_done.
  by exists prompt, msg, choices.
Qed.

Lemma every_requested_search_dispatched_witness :
  ∃ prompt msg choices,
    Research.PromptBuilder Stub.eager (Research.messages Stub.after_five_searches)
    = Ok prompt ∧
    Research.CreateChatCompletion Stub.eager
      (BuildConversationHistory prompt
         (Research.messages Stub.after_five_searches))
    = Ok (msg :: choices) ∧
    searches [Searches "query"]
    = (λ toolCall, fn_Arguments (tc_Function toolCall))
        <$> filter Research.is_search (ToolCalls msg) ∧
    true = bool_decide (ToolCalls msg ≠ []).
Proof.
  eapply (every_requested_search_dispatched Stub.eager Stub.after_five_searches).
  vm_compute. reflexivity.
Defined.

(** C1 as stated fails: after five searches the model asks for a sixth, the
    iteration dispatches it and reports continuation; the whole session runs
    six searches. *)
Lemma sixth_search_dispatched :
  length (Research.compressedResearchNotes Stub.after_five_searches) = 15 ∧
  (∃ st, Research.Execute Stub.eager Stub.after_five_searches
         = (Done ("", true), st, [Searches "query"])) ∧
  (∃ st tr, Session.Run (Session.NewChatSession (Stub.session Stub.eager)) 7
              ["a question"] Session.initial
            = (Done (), st, tr) ∧
            length (searches tr) = 6).
Proof.
  split; [|split].
  - vm_compute. reflexivity.
  - eexists. vm_compute. reflexivity.
  - eexists _, _. split; vm_compute; reflexivity.
Qed.

(** C10: a tool invocation whose name is neither search_tool nor
    reflection_tool is skipped: dispatching it changes nothing and is no
    error, a turn with it is dispatched like the turn without it, a turn of
    such invocations only appends the model's turn to the ledger and reports
    continuation, and every iteration that returns without error on a turn
    holding it reports continuation. *)
Theorem unknown_tool_skipped svc toolCall :
  ¬ Research.known toolCall →
  (∀ st, Research.dispatch svc toolCall st = (Done (), st, [])) ∧
  (∀ before after st,
     Research.dispatch_all svc (before ++ toolCall :: after) st
     = Research.dispatch_all svc (before ++ after) st) ∧
  (∀ st prompt msg choices,
     Research.PromptBuilder svc (Research.messages st) = Ok prompt →
     Research.CreateChatCompletion svc
       (BuildConversationHistory prompt (Research.messages st))
     = Ok (msg :: choices) →
     toolCall ∈ ToolCalls msg →
     (Forall (λ toolCall, ¬ Research.known toolCall) (ToolCalls msg) →
      Research.Execute svc st
      = (Done ("", true),
         {| Research.messages := Research.messages st ++ [msg];
            Research.compressedResearchNotes :=
              Research.compressedResearchNotes st |}, [])) ∧
     (∀ resp cont st' tr,
        Research.Execute svc st = (Done (resp, cont), st', tr) → cont = true)).
Proof.
  intros Hun. split; [|split].
  - intros st. by apply dispatch_unknown.
  - intros before after st. rewrite !dispatch_all_app.
    unfold mbind, M_bind.
    destruct (Research.dispatch_all svc before st) as [[[[]|e| | |] s1] tr1];
      try done.
    simpl. rewrite (bind_done _ _ _ _ _ _ (dispatch_unknown svc toolCall s1 Hun)).
    by destruct (Research.dispatch_all svc after s1) as [[o s2] tr2].
  - intros st prompt msg choices EP EC Hin. split.
    + intros Hall. unfold Research.Execute. rewrite get_bind, EP. simpl call.
      rewrite ret_bind, EC. simpl call_wrapped. rewrite ret_bind.
      unfold Research.append. rewrite modify_bind.
      rewrite decide_False by (destruct (ToolCalls msg); [by inversion Hin|done]).
      by rewrite (bind_done _ _ _ _ _ _ (dispatch_all_unknown svc _ _ Hall)).
    + intros resp cont st' tr H.
      apply Execute_done in H
        as (prompt' & msg' & choices' & after & EP' & EC' & _ & _ & -> & _).
      rewrite EP in EP'. injection EP' as <-. rewrite EC in EC'.
      injection EC' as <- <-. apply bool_decide_eq_true_2.
      intros E. rewrite E in Hin. by inversion Hin.
Qed.

Lemma unknown_tool_skipped_witness :
  Research.dispatch Stub.thinker Stub.think Stub.research_state
  = (Done (), Stub.research_state, []) ∧
  Research.Execute Stub.thinker Stub.research_state
  = (Done ("", true),
     {| Research.messages :=
          Research.messages Stub.research_state ++ [Stub.turn [Stub.think]];
        Research.compressedResearchNotes :=
          Research.compressedResearchNotes Stub.research_state |}, []).
Proof.
  assert (Hun : ¬ Research.known Stub.think).
  { intros [H|H]; discriminate H. }
  destruct (unknown_tool_skipped Stub.thinker Stub.think Hun) as (H1 & _ & H3).
  split; [apply H1|].
  eapply H3; [reflexivity | reflexivity | left | by repeat constructor].
Defined.

(** ** The session *)

Section SessionFacts.
Import Session.

#[local] Instance untouched_preorder : PreOrder untouched.
Proof.
  split.
  - by intros st.
  - intros st1 st2 st3 [H1 H2] [H3 H4]. split; congruence.
Qed.

#[local] Instance brief_kept_preorder : PreOrder brief_kept.
Proof.
  split.
  - by intros st.
  - intros st1 st2 st3 [H1 H2] [H3 H4]. split; [congruence | by etrans].
Qed.

Ltac preserves_step R :=
  first
    [ apply (preserves_bind R); [|intros ?]
    | apply (preserves_ret R) | apply (preserves_get R)
    | apply (preserves_emit R) | apply (preserves_stop R)
    | apply (preserves_call R) | apply (preserves_call_wrapped R)
    | apply (preserves_attempt R) ].

Lemma untouched_on_conversation {A} (m : M (list ChatCompletionMessage) A) :
  preserves untouched (on_conversation m).
Proof.
  intros st. unfold on_conversation, zoom.
  by destruct (m (conversation st)) as [[o ms] tr].
Qed.

Lemma brief_kept_on_research {A} (m : M Research.State A) :
  preserves Research.grows m → preserves brief_kept (on_research m).
Proof.
  intros Hm st. unfold on_research, zoom.
  match goal with |- context [m ?r] => specialize (Hm r) end.
  destruct (m _) as [[o r] tr]. simpl in *. by split.
Qed.

Lemma Report_Execute_reads svc : preserves eq (Report.Execute svc).
Proof. unfold Report.Execute. repeat preserves_step (@eq Report.State). Qed.

Lemma brief_kept_on_report svc :
  preserves brief_kept (on_report (Report.Execute svc)).
Proof.
  intros st. unfold on_report, zoom.
  pose proof (Report_Execute_reads svc
                {| Report.researchBrief := researchBrief st;
                   Report.compressedResearchNotes := compressedResearchNotes st |})
    as Hm.
  destruct (Report.Execute svc _) as [[o r] tr]. simpl in *. by subst.
Qed.

Lemma untouched_processUserInput userInput :
  preserves untouched (processUserInput userInput).
Proof.
  unfold processUserInput. preserves_step untouched; [preserves_step untouched|].
  destruct userInput as [line|]; [|preserves_step untouched].
  preserves_step untouched.
  - preserves_step untouched. unfold addUserMessage.
    case_decide; [preserves_step untouched|].
    apply (preserves_modify untouched). by intros st.
  - case_match; repeat preserves_step untouched.
Qed.

Lemma processUserInput_some line st :
  fst (fst (processUserInput (Some line) st)) = Done true.
Proof.
  unfold processUserInput. rewrite emit_bind. simpl.
  unfold mbind, M_bind, attempt, addUserMessage.
  by case_decide.
Qed.

Section Loops.
Variable wf : WorkflowManager.

Lemma untouched_clarifyTurn userInput rest again :
  preserves untouched (wf_clarifyWithUser wf) →
  preserves untouched again →
  preserves untouched (clarifyTurn wf userInput rest again).
Proof.
  intros Hc Ha. unfold clarifyTurn.
  preserves_step untouched; [apply untouched_processUserInput|].
  case_match; simpl; [preserves_step untouched|].
  preserves_step untouched; [preserves_step untouched|].
  preserves_step untouched; [by preserves_step untouched|].
  repeat case_match; repeat preserves_step untouched; done.
Qed.

Lemma untouched_clarifyLoop input :
  preserves untouched (wf_clarifyWithUser wf) →
  preserves untouched (clarifyLoop wf input).
Proof.
  intros Hc. induction input as [|line rest IH]; simpl;
    by apply untouched_clarifyTurn.
Qed.

Lemma brief_kept_researchLoop fuel :
  preserves brief_kept (wf_webResearch wf) →
  preserves brief_kept (researchLoop wf fuel).
Proof.
  intros Hr. induction fuel as [|fuel IH]; simpl; [preserves_step brief_kept|].
  preserves_step brief_kept; [preserves_step brief_kept|].
  preserves_step brief_kept; [by preserves_step brief_kept|].
  repeat case_match; repeat preserves_step brief_kept; done.
Qed.

Lemma brief_kept_reportPhase :
  preserves brief_kept (wf_researchReportGeneration wf) →
  preserves brief_kept (reportPhase wf).
Proof.
  intros Hr. unfold reportPhase.
  preserves_step brief_kept; [preserves_step brief_kept|].
  preserves_step brief_kept; [by preserves_step brief_kept|].
  repeat case_match; repeat preserves_step brief_kept.
Qed.

Lemma brief_kept_research_and_report fuel :
  preserves brief_kept (wf_webResearch wf) →
  preserves brief_kept (wf_researchReportGeneration wf) →
  preserves brief_kept (researchLoop wf fuel;; reportPhase wf).
Proof.
  intros Hr Hp. preserves_step brief_kept.
  - by apply brief_kept_researchLoop.
  - by apply brief_kept_reportPhase.
Qed.

(** *** How the phases follow each other *)

Lemma clarifyTurn_fails line rest again st e st' tr :
  wf_clarifyWithUser wf (snd (fst (processUserInput (Some line) st)))
  = (Fail e, st', tr) →
  clarifyTurn wf (Some line) rest again st
  = (Done rest, st',
     snd (processUserInput (Some line) st)
     ++ Executes clarifyWithUser :: tr ++ [ErrorGenerating e]).
Proof.
  intros E. unfold clarifyTurn.
  pose proof (processUserInput_some line st) as Hp.
  destruct (processUserInput (Some line) st) as [[o s0] tr0] eqn:E0.
  simpl in Hp, E. subst o. rewrite (bind_done _ _ _ _ _ _ E0).
  change (negb true) with false. cbv iota. rewrite emit_bind, (bind_done _ _ _ _ _ _ (attempt_fail _ _ _ _ _ E)).
  by rewrite emit_bind.
Qed.

Lemma researchLoop_fails fuel st e st' tr :
  wf_webResearch wf st = (Fail e, st', tr) →
  researchLoop wf (S fuel) st = (Done (), st', Executes webResearch :: tr).
Proof.
  intros E. simpl.
  rewrite emit_bind, (bind_done _ _ _ _ _ _ (attempt_fail _ _ _ _ _ E)).
  simpl. by rewrite app_nil_r.
Qed.

Lemma reportPhase_fails st e st' tr :
  wf_researchReportGeneration wf st = (Fail e, st', tr) →
  reportPhase wf st
  = (Fail ("error generating response: " +:+ e), st',
     Executes researchReportGeneration :: tr).
Proof.
  intros E. unfold reportPhase.
  rewrite emit_bind, (bind_done _ _ _ _ _ _ (attempt_fail _ _ _ _ _ E)).
  simpl. by rewrite app_nil_r.
Qed.

Lemma reportPhase_done st resp cont st' tr :
  wf_researchReportGeneration wf st = (Done (resp, cont), st', tr) →
  reportPhase wf st
  = (Done (), st', Executes researchReportGeneration :: tr ++ [Response resp]).
Proof.
  intros E. unfold reportPhase.
  by rewrite emit_bind, (bind_done _ _ _ _ _ _ (attempt_done _ _ _ _ _ E)).
Qed.

Lemma briefPhase_fails fuel st e st' tr :
  wf_researchBriefGeneration wf st = (Fail e, st', tr) →
  briefPhase wf fuel st
  = (Fail ("error generating response: " +:+ e), st',
     Executes researchBriefGeneration :: tr).
Proof.
  intros E. unfold briefPhase.
  rewrite emit_bind, (bind_done _ _ _ _ _ _ (attempt_fail _ _ _ _ _ E)).
  simpl. by rewrite app_nil_r.
Qed.

Lemma briefPhase_done fuel st resp cont st' tr :
  wf_researchBriefGeneration wf st = (Done (resp, cont), st', tr) →
  briefPhase wf fuel st
  = (fst ((researchLoop wf fuel;; reportPhase wf) (seed resp st')),
     Executes researchBriefGeneration
       :: tr ++ snd ((researchLoop wf fuel;; reportPhase wf) (seed resp st'))).
Proof.
  intros E. unfold briefPhase.
  rewrite emit_bind, (bind_done _ _ _ _ _ _ (attempt_done _ _ _ _ _ E)).
  unfold set_brief. by rewrite modify_bind.
Qed.

Lemma Run_after_clarify fuel input st rest st' tr :
  clarifyLoop wf input st = (Done rest, st', tr) →
  Run wf fuel input st
  = (fst (briefPhase wf fuel st'),
     Welcome :: tr ++ snd (briefPhase wf fuel st')).
Proof.
  intros E. unfold Run. by rewrite emit_bind, (bind_done _ _ _ _ _ _ E).
Qed.

End Loops.

(** *** The workflows as [NewChatSession] wires them *)

Lemma Clarify_Execute_ok svc ms prompt out :
  Clarify.PromptBuilder svc ms = Ok prompt →
  Clarify.CreateChatCompletion svc ms prompt = Ok out →
  Clarify.Execute svc ms
  = (Done (if Clarify.NeedClarification out
           then Clarify.Question out else Clarify.Verification out,
           Clarify.NeedClarification out),
     ms ++ [message ChatMessageRoleAssistant
              (if Clarify.NeedClarification out
               then Clarify.Question out else Clarify.Verification out)],
     []).
Proof.
  intros EP EC. unfold Clarify.Execute. rewrite get_bind, EP. simpl call.
  rewrite ret_bind, EC. simpl call_wrapped. rewrite ret_bind.
  by destruct (Clarify.NeedClarification out).
Qed.

Lemma Clarify_Execute_done svc ms resp cont ms' tr :
  Clarify.Execute svc ms = (Done (resp, cont), ms', tr) →
  ∃ prompt out,
    Clarify.PromptBuilder svc ms = Ok prompt ∧
    Clarify.CreateChatCompletion svc ms prompt = Ok out ∧
    resp = (if Clarify.NeedClarification out
            then Clarify.Question out else Clarify.Verification out) ∧
    ms' = ms ++ [message ChatMessageRoleAssistant resp] ∧
    cont = Clarify.NeedClarification out.
Proof.
  destruct (Clarify.PromptBuilder svc ms) as [prompt|e] eqn:EP.
  - destruct (Clarify.CreateChatCompletion svc ms prompt) as [out|e] eqn:EC.
    + rewrite (Clarify_Execute_ok _ _ _ _ EP EC). intros [= <- <- <- <-].
      by exists prompt, out.
    + unfold Clarify.Execute. rewrite get_bind, EP. simpl call.
      by rewrite ret_bind, EC.
  - unfold Clarify.Execute. by rewrite get_bind, EP.
Qed.

Lemma NewChatSession_keeps svc :
  preserves untouched (wf_clarifyWithUser (NewChatSession svc)) ∧
  preserves untouched (wf_researchBriefGeneration (NewChatSession svc)) ∧
  preserves brief_kept (wf_webResearch (NewChatSession svc)) ∧
  preserves brief_kept (wf_researchReportGeneration (NewChatSession svc)).
Proof.
  split; [|split; [|split]]; simpl.
  - apply untouched_on_conversation.
  - apply untouched_on_conversation.
  - apply brief_kept_on_research, grows_Execute.
  - apply brief_kept_on_report.
Qed.

End SessionFacts.

(** ** Claims about the session *)

(** C5, on the program: when standard input ends at the first prompt, [Run]
    leaves the clarify loop and goes on with the brief phase, whose first
    act is to execute the brief workflow; research and report follow as in
    any other session. *)
Theorem end_of_input_runs_brief_phase wf fuel st :
  Session.Run wf fuel [] st
  = (fst (Session.briefPhase wf fuel st),
     Welcome :: UserPrompt :: snd (Session.briefPhase wf fuel st)) ∧
  ∃ tr, snd (Session.briefPhase wf fuel st)
        = Executes researchBriefGeneration :: tr.
Proof.
  split.
  - by rewrite (Run_after_clarify wf fuel [] st [] st [UserPrompt]).
  - unfold Session.briefPhase. rewrite emit_bind. by eexists.
Qed.

Example end_of_input_session :
  ∃ st,
    Session.Run (Session.NewChatSession (Stub.session Stub.quiet)) 7 []
      Session.initial
    = (Done (), st,
       [Welcome; UserPrompt; Executes researchBriefGeneration;
        Executes webResearch; Executes researchReportGeneration;
        Response "the report"]).
Proof. eexists. vm_compute. reflexivity. Qed.

(** C6, as the program has it: once the clarify loop is over, an error of the
    brief workflow or of the report workflow ends the run with that error and
    nothing runs after it; an error of the research workflow only ends the
    research loop, and the run goes on with the report phase, whose report
    is printed. *)
Theorem loop_errors_end_only_the_loop wf fuel input st rest s1 tr1 :
  Session.clarifyLoop wf input st = (Done rest, s1, tr1) →
  (∀ e s2 tr2,
     Session.wf_researchBriefGeneration wf s1 = (Fail e, s2, tr2) →
     Session.Run wf fuel input st
     = (Fail ("error generating response: " +:+ e), s2,
        Welcome :: tr1 ++ Executes researchBriefGeneration :: tr2)) ∧
  (∀ resp cont s2 tr2 s3 tr3,
     Session.wf_researchBriefGeneration wf s1 = (Done (resp, cont), s2, tr2) →
     Session.researchLoop wf fuel (Session.seed resp s2) = (Done (), s3, tr3) →
     (∀ e s4 tr4,
        Session.wf_researchReportGeneration wf s3 = (Fail e, s4, tr4) →
        Session.Run wf fuel input st
        = (Fail ("error generating response: " +:+ e), s4,
           Welcome :: tr1 ++ Executes researchBriefGeneration :: tr2 ++ tr3
             ++ Executes researchReportGeneration :: tr4)) ∧
     (∀ report more s4 tr4,
        Session.wf_researchReportGeneration wf s3
        = (Done (report, more), s4, tr4) →
        Session.Run wf fuel input st
        = (Done (), s4,
           Welcome :: tr1 ++ Executes researchBriefGeneration :: tr2 ++ tr3
             ++ Executes researchReportGeneration :: tr4
             ++ [Response report]))) ∧
  (∀ fuel' s e s' tr,
     Session.wf_webResearch wf s = (Fail e, s', tr) →
     Session.researchLoop wf (S fuel') s
     = (Done (), s', Executes webResearch :: tr)).
Proof.
  intros Hc. split; [|split].
  - intros e s2 tr2 E. rewrite (Run_after_clarify _ _ _ _ _ _ _ Hc).
    by rewrite (briefPhase_fails _ _ _ _ _ _ E).
  - intros resp cont s2 tr2 s3 tr3 Eb El. split.
    + intros e s4 tr4 E. rewrite (Run_after_clarify _ _ _ _ _ _ _ Hc).
      rewrite (briefPhase_done _ _ _ _ _ _ _ Eb).
      rewrite (bind_done _ _ _ _ _ _ El), (reportPhase_fails _ _ _ _ _ E).
      done.
    + intros report more s4 tr4 E. rewrite (Run_after_clarify _ _ _ _ _ _ _ Hc).
      rewrite (briefPhase_done _ _ _ _ _ _ _ Eb).
      rewrite (bind_done _ _ _ _ _ _ El), (reportPhase_done _ _ _ _ _ _ E).
      done.
  - intros fuel' s e s' tr. apply researchLoop_fails.
Qed.

Lemma loop_errors_end_only_the_loop_witness :
  ∃ s', Session.researchLoop
          (Session.NewChatSession (Stub.session Stub.research_down)) 7
          (Session.seed "the brief" Session.initial)
        = (Done (), s', [Executes webResearch]).
Proof.
  edestruct (loop_errors_end_only_the_loop
               (Session.NewChatSession (Stub.session Stub.research_down)) 7
               ["a question"] Session.initial) as (_ & _ & H).
  { vm_compute. reflexivity. }
  eexists. eapply H. vm_compute. reflexivity.
Defined.

(** C6 as stated fails: the research workflow fails on its first call, and
    the run still executes the report workflow, prints its report and ends
    without error. *)
Lemma failed_research_still_reports :
  (∃ st, Research.Execute Stub.research_down Stub.research_state
         = (Fail "failed to create chat completion: connection refused",
            st, [])) ∧
  (∃ st, Session.Run (Session.NewChatSession (Stub.session Stub.research_down))
           7 ["a question"] Session.initial
         = (Done (), st,
            [Welcome; UserPrompt; Executes clarifyWithUser;
             Response "Information complete.";
             Executes researchBriefGeneration; Executes webResearch;
             Executes researchReportGeneration; Response "the report"])).
Proof. split; eexists; vm_compute; reflexivity. Qed.

(** C7: a clarify iteration that returns without error has appended exactly
    one assistant message to the clarify ledger, the question when
    clarification is needed and the verification otherwise, and asks for
    another turn exactly when clarification is needed; when the first answer
    says that no clarification is needed, the clarify loop of a session ends
    after reading one line of the user. *)
Theorem clarify_turn svc :
  (∀ ms resp cont ms' tr,
     Clarify.Execute (Session.clarify svc) ms = (Done (resp, cont), ms', tr) →
     ∃ prompt out,
       Clarify.PromptBuilder (Session.clarify svc) ms = Ok prompt ∧
       Clarify.CreateChatCompletion (Session.clarify svc) ms prompt = Ok out ∧
       resp = (if Clarify.NeedClarification out
               then Clarify.Question out else Clarify.Verification out) ∧
       ms' = ms ++ [message ChatMessageRoleAssistant resp] ∧
       cont = Clarify.NeedClarification out) ∧
  (∀ line rest st prompt out,
     Clarify.PromptBuilder (Session.clarify svc)
       (Session.conversation
          (snd (fst (Session.processUserInput (Some line) st))))
     = Ok prompt →
     Clarify.CreateChatCompletion (Session.clarify svc)
       (Session.conversation
          (snd (fst (Session.processUserInput (Some line) st)))) prompt
     = Ok out →
     Clarify.NeedClarification out = false →
     Session.clarifyLoop (Session.NewChatSession svc) (line :: rest) st
     = (Done rest,
        {| Session.conversation :=
             Session.conversation
               (snd (fst (Session.processUserInput (Some line) st)))
             ++ [message ChatMessageRoleAssistant (Clarify.Verification out)];
           Session.researchConversation :=
             Session.researchConversation
               (snd (fst (Session.processUserInput (Some line) st)));
           Session.researchBrief :=
             Session.researchBrief
               (snd (fst (Session.processUserInput (Some line) st)));
           Session.compressedResearchNotes :=
             Session.compressedResearchNotes
               (snd (fst (Session.processUserInput (Some line) st))) |},
        snd (Session.processUserInput (Some line) st)
        ++ [Executes clarifyWithUser; Response (Clarify.Verification out)])).
Proof.
  split.
  - intros ms resp cont ms' tr. apply Clarify_Execute_done.
  - intros line rest st prompt out EP EC Hno. simpl Session.clarifyLoop.
    unfold Session.clarifyTurn.
    pose proof (processUserInput_some line st) as Hp.
    destruct (Session.processUserInput (Some line) st) as [[o s0] tr0] eqn:E0.
    simpl in Hp, EP, EC |- *. subst o. rewrite (bind_done _ _ _ _ _ _ E0).
    change (negb true) with false. cbv iota. rewrite emit_bind.
    assert (Ex : Session.wf_clarifyWithUser (Session.NewChatSession svc) s0
                 = (Done (Clarify.Verification out, false),
                    {| Session.conversation :=
                         Session.conversation s0
                         ++ [message ChatMessageRoleAssistant
                               (Clarify.Verification out)];
                       Session.researchConversation :=
                         Session.researchConversation s0;
                       Session.researchBrief := Session.researchBrief s0;
                       Session.compressedResearchNotes :=
                         Session.compressedResearchNotes s0 |}, [])).
    { simpl. unfold Session.on_conversation, zoom.
      rewrite (Clarify_Execute_ok _ _ _ _ EP EC), Hno. done. }
    rewrite (bind_done _ _ _ _ _ _ (attempt_done _ _ _ _ _ Ex)).
    by rewrite emit_bind.
Qed.

Lemma clarify_turn_witness :
  ∃ st tr,
    Session.clarifyLoop (Session.NewChatSession (Stub.session Stub.quiet))
      ["a question"; "never read"] Session.initial
    = (Done ["never read"], st, tr) ∧
    Session.conversation st
    = [message ChatMessageRoleUser "a question";
       message ChatMessageRoleAssistant "Information complete."] ∧
    tr = [UserPrompt; Executes clarifyWithUser;
          Response "Information complete."].
Proof.
  eexists _, _. split.
  - eapply (clarify_turn (Stub.session Stub.quiet)); reflexivity.
  - split; reflexivity.
Defined.

(** C8: the brief is written once.  The clarify and the brief workflows do
    not touch the brief or the research ledger; a research iteration and the
    report workflow leave the brief as it is and only append to the research
    ledger.  In a session, either the brief phase fails and the brief is
    never written, or [Run] writes the answer of the brief workflow into the
    state and makes it the first message, of role user, of the research
    ledger, the research loop starts from that state, and the state at the
    end still holds that brief and that first message. *)
Theorem brief_written_once svc :
  preserves Session.untouched
    (Session.wf_clarifyWithUser (Session.NewChatSession svc)) ∧
  preserves Session.untouched
    (Session.wf_researchBriefGeneration (Session.NewChatSession svc)) ∧
  preserves Session.brief_kept
    (Session.wf_webResearch (Session.NewChatSession svc)) ∧
  preserves Session.brief_kept
    (Session.wf_researchReportGeneration (Session.NewChatSession svc)) ∧
  ∀ fuel input o st' tr,
    Session.Run (Session.NewChatSession svc) fuel input Session.initial
    = (o, st', tr) →
    (Session.researchBrief st' = "" ∧ Session.researchConversation st' = []) ∨
    ∃ rest s1 tr1 resp cont s2 tr2,
      Session.clarifyLoop (Session.NewChatSession svc) input Session.initial
      = (Done rest, s1, tr1) ∧
      Session.wf_researchBriefGeneration (Session.NewChatSession svc) s1
      = (Done (resp, cont), s2, tr2) ∧
      Session.researchBrief s2 = "" ∧
      Session.researchConversation s2 = [] ∧
      Session.researchBrief (Session.seed resp s2) = resp ∧
      Session.researchConversation (Session.seed resp s2)
      = [message ChatMessageRoleUser resp] ∧
      (o, st', tr)
      = (fst ((Session.researchLoop (Session.NewChatSession svc) fuel;;
               Session.reportPhase (Session.NewChatSession svc))
                (Session.seed resp s2)),
         Welcome :: tr1 ++ Executes researchBriefGeneration :: tr2
           ++ snd ((Session.researchLoop (Session.NewChatSession svc) fuel;;
                    Session.reportPhase (Session.NewChatSession svc))
                     (Session.seed resp s2))) ∧
      Session.researchBrief st' = resp ∧
      ∃ later,
        Session.researchConversation st'
        = message ChatMessageRoleUser resp :: later.
Proof.
  destruct (NewChatSession_keeps svc) as (Hc & Hb & Hr & Hp).
  repeat (split; [done|]).
  set (wf := Session.NewChatSession svc) in *.
  intros fuel input o st' tr HR.
  pose proof (untouched_clarifyLoop wf input Hc Session.initial) as [Hu1 Hu2].
  destruct (Session.clarifyLoop wf input Session.initial)
    as [[o1 s1] tr1] eqn:Ec.
  simpl in Hu1, Hu2.
  assert (Hnot : (∀ rest, o1 ≠ Done rest) →
            Session.researchBrief st' = "" ∧
            Session.researchConversation st' = []).
  { intros Hne. unfold Session.Run in HR. rewrite emit_bind in HR.
    unfold mbind at 1, M_bind in HR. rewrite Ec in HR.
    destruct o1 as [rest|e| | |]; [by destruct (Hne rest)|..];
      injection HR as <- <- <-; done. }
  destruct o1 as [rest|e| | |]; try (left; by apply Hnot).
  clear Hnot. rewrite (Run_after_clarify _ _ _ _ _ _ _ Ec) in HR.
  pose proof (Hb s1) as [Hv1 Hv2].
  destruct (Session.wf_researchBriefGeneration wf s1)
    as [[o2 s2] tr2] eqn:Eb.
  simpl in Hv1, Hv2.
  destruct o2 as [[resp cont]|e| | |].
  2-5: left; unfold Session.briefPhase in HR; rewrite emit_bind in HR;
       unfold mbind, M_bind, attempt in HR; rewrite Eb in HR;
       injection HR as <- <- <-; split; congruence.
  right. rewrite (briefPhase_done _ _ _ _ _ _ _ Eb) in HR.
  exists rest, s1, tr1, resp, cont, s2, tr2.
  assert (Hs2 : Session.researchConversation s2 = []) by congruence.
  assert (Hkept : preserves Session.brief_kept
                    (Session.researchLoop wf fuel;; Session.reportPhase wf)).
  { by apply brief_kept_research_and_report. }
  specialize (Hkept (Session.seed resp s2)).
  destruct ((Session.researchLoop wf fuel;; Session.reportPhase wf)
              (Session.seed resp s2)) as [[o3 s3] tr3].
  simpl in HR, Hkept. injection HR as <- <- <-.
  destruct Hkept as [Hk1 [later Hk2]]. simpl in Hk2. rewrite Hs2 in Hk2.
  repeat split; try done; try congruence.
  - simpl. by rewrite Hs2.
  - by exists later.
Qed.

Lemma brief_written_once_witness :
  ∃ st tr,
    Session.Run (Session.NewChatSession (Stub.session Stub.eager)) 7
      ["a question"] Session.initial
    = (Done (), st, tr) ∧
    Session.researchBrief st = "the brief" ∧
    ∃ later,
      Session.researchConversation st
      = message ChatMessageRoleUser "the brief" :: later.
Proof.
  destruct (Session.Run (Session.NewChatSession (Stub.session Stub.eager)) 7
              ["a question"] Session.initial) as [[o st] tr] eqn:HR.
  exists st, tr.
  destruct (brief_written_once (Stub.session Stub.eager))
    as (_ & _ & _ & _ & H).
  destruct (H _ _ _ _ _ HR)
    as [[H1 _]|(rest & s1 & tr1 & resp & cont & s2 & tr2 & Ec & Eb & _ & _
                & _ & _ & _ & H1 & H2)].
  - vm_compute in HR. injection HR as <- <- <-. discriminate H1.
  - vm_compute in Ec. injection Ec as <- <- <-.
    vm_compute in Eb. injection Eb as <- <- <- <-.
    split; [|by split].
    vm_compute in HR. by injection HR as <- <- <-.
Defined.

(** * Further properties of the code *)

(** ** The worker pool *)









(** X4: the orchestrator never writes outside the slice it allocated:
    whatever the services and the schedule, the call does not panic; it
    returns a result, returns an error, or is still waiting. *)
Theorem summarizer_never_panics svc sched results notes :
  fst (Summarizer.summarizeWebSearchResult svc sched results notes) ≠ Panic ∧
  fst (Summarizer.summarizeWebSearchResult svc sched results notes) ≠ OutOfFuel.
Proof.
  unfold Summarizer.summarizeWebSearchResult.
  destruct results as [|x results]; [done|].
  pose proof (run_pool_inv svc _ sched _ (spawn_inv svc (x :: results))) as Hp.
  destruct (collect_cases svc _ _ Hp)
    as [E|[(ns & E & _)|(pre & r & post & e & _ & _ & _ & _ & E)]];
    by rewrite E.
Qed.

(** ** The dispatch of one tool call *)

Section DispatchRuns.
Import Research.
Variable svc : Services.

Lemma summarize_run results st sm sched o notes :
  batch svc (messages st) = (sm, sched) →
  Summarizer.summarizeWebSearchResult sm sched results
    (compressedResearchNotes st) = (o, notes) →
  summarize svc results st
  = (o, {| messages := messages st; compressedResearchNotes := notes |}, []).
Proof.
  intros Eb Es. unfold summarize. rewrite Eb. cbv beta iota. rewrite Es.
  reflexivity.
Qed.

Lemma dispatch_search_failed toolCall st e :
  is_search toolCall →
  SearchTool_Execute svc (messages st) (fn_Arguments (tc_Function toolCall))
  = Err e →
  dispatch svc toolCall st
  = (Fail (wrap "failed to execute search tool" e), st,
     [Searches (fn_Arguments (tc_Function toolCall))]).
Proof.
  intros Hs Ee. unfold is_search in Hs. unfold dispatch.
  rewrite (decide_True (P := _ = "search_tool")) by done.
  rewrite (decide_False (P := _ = "reflection_tool"))
    by (rewrite Hs; discriminate).
  unfold mbind at 1, M_bind at 1. rewrite get_bind, emit_bind, Ee. done.
Qed.

Lemma dispatch_search_done toolCall st results sm sched summarized notes :
  is_search toolCall →
  SearchTool_Execute svc (messages st) (fn_Arguments (tc_Function toolCall))
  = Ok results →
  batch svc (messages st) = (sm, sched) →
  Summarizer.summarizeWebSearchResult sm sched results
    (compressedResearchNotes st) = (Done summarized, notes) →
  dispatch svc toolCall st
  = (Done (),
     {| messages := messages st ++ [tool_message toolCall summarized];
        compressedResearchNotes := notes |},
     [Searches (fn_Arguments (tc_Function toolCall))]).
Proof.
  intros Hs Ee Eb Es. unfold is_search in Hs. unfold dispatch.
  rewrite (decide_True (P := _ = "search_tool")) by done.
  rewrite (decide_False (P := _ = "reflection_tool"))
    by (rewrite Hs; discriminate).
  unfold mbind at 1, M_bind at 1. rewrite get_bind, emit_bind, Ee.
  simpl call_wrapped. rewrite ret_bind. unfold on_error.
  unfold mbind, M_bind, attempt. by rewrite (summarize_run _ _ _ _ _ _ Eb Es).
Qed.

Lemma dispatch_search_not_summarized toolCall st results sm sched e notes :
  is_search toolCall →
  SearchTool_Execute svc (messages st) (fn_Arguments (tc_Function toolCall))
  = Ok results →
  batch svc (messages st) = (sm, sched) →
  Summarizer.summarizeWebSearchResult sm sched results
    (compressedResearchNotes st) = (Fail e, notes) →
  dispatch svc toolCall st
  = (Fail (wrap "failed to summarize web search results" e),
     {| messages := messages st; compressedResearchNotes := notes |},
     [Searches (fn_Arguments (tc_Function toolCall))]).
Proof.
  intros Hs Ee Eb Es. unfold is_search in Hs. unfold dispatch.
  rewrite (decide_True (P := _ = "search_tool")) by done.
  rewrite (decide_False (P := _ = "reflection_tool"))
    by (rewrite Hs; discriminate).
  unfold mbind at 1, M_bind at 1. rewrite get_bind, emit_bind, Ee.
  simpl call_wrapped. rewrite ret_bind. unfold on_error.
  unfold mbind, M_bind, attempt. by rewrite (summarize_run _ _ _ _ _ _ Eb Es).
Qed.

Lemma dispatch_reflection toolCall st :
  fn_Name (tc_Function toolCall) = "reflection_tool" →
  dispatch svc toolCall st
  = match Unmarshal_ReflectionTool svc (fn_Arguments (tc_Function toolCall)) with
    | Err e => (Fail e, st, [])
    | Ok reflection =>
        (Done (),
         {| messages :=
              messages st
              ++ [tool_message toolCall ("Reflection recorded: " +:+ reflection)];
            compressedResearchNotes := compressedResearchNotes st |}, [])
    end.
Proof.
  intros Hr. unfold dispatch.
  rewrite (decide_False (P := _ = "search_tool")) by (rewrite Hr; discriminate).
  rewrite (decide_True (P := _ = "reflection_tool")) by done.
  rewrite ret_bind. unfold ReflectionTool_Execute.
  by destruct (Unmarshal_ReflectionTool svc _).
Qed.

End DispatchRuns.

(** ** A research iteration *)

Section IterationFacts.
Import Research.
Variable svc : Services.

Lemma dispatch_search_summarized toolCall st results sm sched o notes :
  is_search toolCall →
  SearchTool_Execute svc (messages st) (fn_Arguments (tc_Function toolCall))
  = Ok results →
  batch svc (messages st) = (sm, sched) →
  Summarizer.summarizeWebSearchResult sm sched results
    (compressedResearchNotes st) = (o, notes) →
  (∀ summarized, o ≠ Done summarized) →
  ∃ o', fst (fst (dispatch svc toolCall st)) = o' ∧ o' ≠ Done ().
Proof.
  intros Hs Ee Eb Es Hne. unfold is_search in Hs. unfold dispatch.
  rewrite (decide_True (P := _ = "search_tool")) by done.
  rewrite (decide_False (P := _ = "reflection_tool"))
    by (rewrite Hs; discriminate).
  unfold mbind at 1, M_bind at 1. rewrite get_bind, emit_bind, Ee.
  simpl call_wrapped. rewrite ret_bind. unfold on_error.
  unfold mbind, M_bind, attempt. rewrite (summarize_run _ _ _ _ _ _ _ Eb Es).
  destruct o as [summarized|e| | |]; [by destruct (Hne summarized)|..];
    eexists; (split; [reflexivity|done]).
Qed.

(** What a dispatch that comes back without error has done to the ledger. *)
Lemma dispatch_done_messages toolCall st st' tr :
  dispatch svc toolCall st = (Done (), st', tr) →
  if decide (known toolCall)
  then ∃ m, answers toolCall m ∧ messages st' = messages st ++ [m]
  else messages st' = messages st.
Proof.
  intros H. destruct (decide (known toolCall)) as [[Hs|Hr]|Hun].
  - destruct (SearchTool_Execute svc (messages st)
                (fn_Arguments (tc_Function toolCall))) as [results|e] eqn:Ee.
    + destruct (batch svc (messages st)) as [sm sched] eqn:Eb.
      destruct (Summarizer.summarizeWebSearchResult sm sched results
                  (compressedResearchNotes st)) as [o notes] eqn:Es.
      destruct o as [summarized|e| | |].
      1: { rewrite (dispatch_search_done svc _ _ _ _ _ _ _ Hs Ee Eb Es) in H.
           injection H as <- <-.
           exists (tool_message toolCall summarized). by repeat split. }
      all: destruct (dispatch_search_summarized _ _ _ _ _ _ _ Hs Ee Eb Es)
             as (o' & Eo & Hne); [done|]; rewrite H in Eo; simpl in Eo;
           by subst.
    + by rewrite (dispatch_search_failed svc _ _ _ Hs Ee) in H.
  - rewrite (dispatch_reflection svc _ _ Hr) in H.
    destruct (Unmarshal_ReflectionTool svc _); [|done].
    injection H as <- <-. eexists. split; [|done]. by repeat split.
  - rewrite (dispatch_unknown svc _ _ Hun) in H. by injection H as <- <-.
Qed.

Lemma dispatch_all_done_messages toolCalls st st' tr :
  dispatch_all svc toolCalls st = (Done (), st', tr) →
  ∃ responses,
    messages st' = messages st ++ responses ∧
    Forall2 answers (filter known toolCalls) responses.
Proof.
  revert st tr. induction toolCalls as [|toolCall rest IH]; intros st tr; simpl.
  - intros [= <- <-]. exists []. by rewrite app_nil_r.
  - intros ([] & s1 & tr1 & tr2 & E1 & E2 & ->)%bind_done_inv.
    apply dispatch_done_messages in E1.
    destruct (IH _ _ E2) as (responses & Em & Hall).
    rewrite filter_cons. destruct (decide (known toolCall)).
    + destruct E1 as (m & Hm & E1). exists (m :: responses).
      split; [by rewrite Em, E1, <- app_assoc | by constructor].
    + exists responses. by rewrite Em, E1.
Qed.

Lemma dispatch_all_aborts before toolCall after st s1 tr1 e s2 tr2 :
  dispatch_all svc before st = (Done (), s1, tr1) →
  dispatch svc toolCall s1 = (Fail e, s2, tr2) →
  dispatch_all svc (before ++ toolCall :: after) st = (Fail e, s2, tr1 ++ tr2).
Proof.
  intros Eb Et. rewrite dispatch_all_app, (bind_done _ _ _ _ _ _ Eb). simpl.
  unfold mbind, M_bind. by rewrite Et.
Qed.

(** An iteration whose model answers and asks for tools. *)
Lemma Execute_with_tools st prompt msg choices :
  PromptBuilder svc (messages st) = Ok prompt →
  CreateChatCompletion svc (BuildConversationHistory prompt (messages st))
  = Ok (msg :: choices) →
  ToolCalls msg ≠ [] →
  Execute svc st
  = (dispatch_all svc (ToolCalls msg);; mret ("", true))
      {| messages := messages st ++ [msg];
         compressedResearchNotes := compressedResearchNotes st |}.
Proof.
  intros EP EC Hne. unfold Execute. rewrite get_bind, EP. simpl call.
  rewrite ret_bind, EC. simpl call_wrapped. rewrite ret_bind.
  unfold append. rewrite modify_bind.
  rewrite decide_False; [done|]. by destruct (ToolCalls msg).
Qed.

Lemma Execute_done_dispatch st resp cont st' tr :
  Execute svc st = (Done (resp, cont), st', tr) →
  ∃ prompt msg choices,
    PromptBuilder svc (messages st) = Ok prompt ∧
    CreateChatCompletion svc (BuildConversationHistory prompt (messages st))
    = Ok (msg :: choices) ∧
    dispatch_all svc (ToolCalls msg)
      {| messages := messages st ++ [msg];
         compressedResearchNotes := compressedResearchNotes st |}
    = (Done (), st', tr).
Proof.
  unfold Execute. rewrite get_bind.
  destruct (PromptBuilder svc (messages st)) as [prompt|e] eqn:EP; [|done].
  simpl call. rewrite ret_bind.
  destruct (CreateChatCompletion svc _) as [[|msg choices]|e] eqn:EC;
    [done| |done].
  simpl call_wrapped. rewrite ret_bind. unfold append. rewrite modify_bind.
  intros H. exists prompt, msg, choices. split; [done|]. split; [done|].
  case_decide as Hlen.
  - injection H as <- <- <- <-. by destruct (ToolCalls msg).
  - apply bind_done_inv in H as ([] & s1 & tr1 & tr2 & E1 & [= <- <- <- <-] & ->).
    by rewrite app_nil_r.
Qed.

End IterationFacts.

(** X5: a reflection_tool invocation calls no service and leaves the
    compressed notes alone: when its arguments decode it appends one tool
    message, "Reflection recorded: " followed by the reflection, that
    carries the invocation's id and name; when they do not decode it returns
    the decoder's error as it is and changes nothing. *)
Theorem reflection_only_answers svc toolCall st :
  fn_Name (tc_Function toolCall) = "reflection_tool" →
  (∀ reflection,
     Research.Unmarshal_ReflectionTool svc (fn_Arguments (tc_Function toolCall))
     = Ok reflection →
     Research.dispatch svc toolCall st
     = (Done (),
        {| Research.messages :=
             Research.messages st
             ++ [ {| Role := ChatMessageRoleTool;
                     Content := "Reflection recorded: " +:+ reflection;
                     Name := "reflection_tool";
                     ToolCallID := tc_ID toolCall;
                     ToolCalls := [] |} ];
           Research.compressedResearchNotes :=
             Research.compressedResearchNotes st |}, [])) ∧
  (∀ e,
     Research.Unmarshal_ReflectionTool svc (fn_Arguments (tc_Function toolCall))
     = Err e →
     Research.dispatch svc toolCall st = (Fail e, st, [])).
Proof.
  intros Hr. rewrite (dispatch_reflection svc _ _ Hr). split.
  - intros reflection ->. unfold Research.tool_message. by rewrite Hr.
  - by intros e ->.
Qed.

Lemma reflection_only_answers_witness :
  Research.dispatch Stub.quiet (Stub.tool_call "reflection_tool" "enough")
    Stub.research_state
  = (Done (),
     {| Research.messages :=
          Research.messages Stub.research_state
          ++ [ {| Role := ChatMessageRoleTool;
                  Content := "Reflection recorded: " +:+ "enough";
                  Name := "reflection_tool";
                  ToolCallID := tc_ID (Stub.tool_call "reflection_tool" "enough");
                  ToolCalls := [] |} ];
        Research.compressedResearchNotes :=
          Research.compressedResearchNotes Stub.research_state |}, []).
Proof.
  apply (reflection_only_answers Stub.quiet
           (Stub.tool_call "reflection_tool" "enough") Stub.research_state);
    reflexivity.
Defined.

(** X6: a search that the search service answers with an error ends the
    iteration there: the error comes back as "failed to execute search
    tool: ...", no tool message is appended for the invocation, the notes
    are as they were, and the invocations after it in the turn are not
    dispatched. *)
Theorem failed_search_aborts_iteration svc st prompt msg choices
    before toolCall after s1 tr1 e :
  Research.PromptBuilder svc (Research.messages st) = Ok prompt →
  Research.CreateChatCompletion svc
    (BuildConversationHistory prompt (Research.messages st))
  = Ok (msg :: choices) →
  ToolCalls msg = before ++ toolCall :: after →
  Research.dispatch_all svc before
    {| Research.messages := Research.messages st ++ [msg];
       Research.compressedResearchNotes := Research.compressedResearchNotes st |}
  = (Done (), s1, tr1) →
  Research.is_search toolCall →
  Research.SearchTool_Execute svc (Research.messages s1)
    (fn_Arguments (tc_Function toolCall)) = Err e →
  Research.Execute svc st
  = (Fail (wrap "failed to execute search tool" e), s1,
     tr1 ++ [Searches (fn_Arguments (tc_Function toolCall))]).
Proof.
  intros EP EC Et Eb Hs Ee.
  rewrite (Execute_with_tools svc _ _ _ _ EP EC)
    by (rewrite Et; by destruct before).
  rewrite Et. unfold mbind, M_bind.
  by rewrite (dispatch_all_aborts svc _ _ _ _ _ _ _ _ _ Eb
                (dispatch_search_failed svc _ _ _ Hs Ee)).
Qed.

Lemma failed_search_aborts_iteration_witness :
  Research.Execute (Tools.with_search Fixture.offline Fixture.busy)
    Stub.research_state
  = (Fail (wrap "failed to execute search tool"
             (wrap "failed to search"
                (wrap "failed to send request" "network unreachable"))),
     {| Research.messages :=
          Research.messages Stub.research_state ++ [Fixture.busy_turn];
        Research.compressedResearchNotes :=
          Research.compressedResearchNotes Stub.research_state |},
     [] ++ [Searches "first"]).
Proof.
  eapply (failed_search_aborts_iteration
            (Tools.with_search Fixture.offline Fixture.busy)
            Stub.research_state _ Fixture.busy_turn []
            [Stub.think] (Stub.tool_call "search_tool" "first")
            [Stub.tool_call "search_tool" "second"]);
    reflexivity.
Defined.

(** X7: a search that finds nothing is an error of the iteration: when the
    search service answers with an empty list, the dispatch returns "failed
    to summarize web search results: no results to summarize" and leaves the
    ledger and the notes as they were. *)
Theorem empty_search_fails svc toolCall st :
  Research.is_search toolCall →
  Research.SearchTool_Execute svc (Research.messages st)
    (fn_Arguments (tc_Function toolCall)) = Ok [] →
  Research.dispatch svc toolCall st
  = (Fail (wrap "failed to summarize web search results"
             "no results to summarize"), st,
     [Searches (fn_Arguments (tc_Function toolCall))]).
Proof.
  intros Hs Ee.
  destruct (Research.batch svc (Research.messages st)) as [sm sched] eqn:Eb.
  rewrite (dispatch_search_not_summarized svc _ _ _ _ _
             "no results to summarize" (Research.compressedResearchNotes st)
             Hs Ee Eb eq_refl).
  by destruct st.
Qed.

Lemma empty_search_fails_witness :
  Research.dispatch (Tools.with_search (Fixture.online []) Fixture.busy)
    (Stub.tool_call "search_tool" "first") Stub.research_state
  = (Fail (wrap "failed to summarize web search results"
             "no results to summarize"), Stub.research_state,
     [Searches (fn_Arguments
                  (tc_Function (Stub.tool_call "search_tool" "first")))]).
Proof.
  apply (empty_search_fails (Tools.with_search (Fixture.online []) Fixture.busy));
    reflexivity.
Defined.

Lemma summarize_all_succeed svc sched results notes :
  results ≠ [] →
  (∀ w, w ∈ Summarizer.jobs results → Summarizer.job_succeeds svc w) →
  Summarizer.quiescent
    (Summarizer.run_pool svc sched (Summarizer.spawn results)) = true →
  Summarizer.summarizeWebSearchResult svc sched results notes
  = (Done (Join (Summarizer.summary_of svc <$> Summarizer.jobs results) nl),
     notes ++ (Summarizer.summary_of svc <$> Summarizer.jobs results)).
Proof.
  intros Hne Hall Hq.
  pose proof (run_pool_inv svc _ sched _ (spawn_inv svc results)) as Hp.
  unfold Summarizer.summarizeWebSearchResult.
  destruct results as [|x results]; [done|].
  by rewrite (collect_all_succeed svc _ _ Hall Hp (quiescent_length svc _ _ Hp Hq)).
Qed.

(** X8: a search whose documents are all summarized is answered by one tool
    message that carries the invocation's id and name and, as its content,
    the summaries joined in the order of the documents; the same summaries
    are appended, in that order, to the compressed notes. *)
Theorem successful_search_answers svc toolCall st results sm sched :
  Research.is_search toolCall →
  Research.SearchTool_Execute svc (Research.messages st)
    (fn_Arguments (tc_Function toolCall)) = Ok results →
  results ≠ [] →
  Research.batch svc (Research.messages st) = (sm, sched) →
  (∀ w, w ∈ Summarizer.jobs results → Summarizer.job_succeeds sm w) →
  Summarizer.quiescent
    (Summarizer.run_pool sm sched (Summarizer.spawn results)) = true →
  Research.dispatch svc toolCall st
  = (Done (),
     {| Research.messages :=
          Research.messages st
          ++ [ {| Role := ChatMessageRoleTool;
                  Content :=
                    Join (Summarizer.summary_of sm <$> Summarizer.jobs results) nl;
                  Name := "search_tool";
                  ToolCallID := tc_ID toolCall;
                  ToolCalls := [] |} ];
        Research.compressedResearchNotes :=
          Research.compressedResearchNotes st
          ++ (Summarizer.summary_of sm <$> Summarizer.jobs results) |},
     [Searches (fn_Arguments (tc_Function toolCall))]).
Proof.
  intros Hs Ee Hne Eb Hall Hq.
  rewrite (dispatch_search_done svc _ _ _ _ _ _ _ Hs Ee Eb
             (summarize_all_succeed sm sched results _ Hne Hall Hq)).
  unfold Research.tool_message. unfold Research.is_search in Hs. by rewrite Hs.
Qed.

Lemma successful_search_answers_witness :
  Research.dispatch Fixture.busy (Stub.tool_call "search_tool" "first")
    Stub.research_state
  = (Done (),
     {| Research.messages :=
          Research.messages Stub.research_state
          ++ [ {| Role := ChatMessageRoleTool;
                  Content :=
                    Join (Summarizer.summary_of Stub.summarizer
                            <$> Summarizer.jobs Stub.docs) nl;
                  Name := "search_tool";
                  ToolCallID := tc_ID (Stub.tool_call "search_tool" "first");
                  ToolCalls := [] |} ];
        Research.compressedResearchNotes :=
          Research.compressedResearchNotes Stub.research_state
          ++ (Summarizer.summary_of Stub.summarizer
                <$> Summarizer.jobs Stub.docs) |},
     [Searches (fn_Arguments
                  (tc_Function (Stub.tool_call "search_tool" "first")))]).
Proof.
  apply (successful_search_answers Fixture.busy
           (Stub.tool_call "search_tool" "first") Stub.research_state
           Stub.docs Stub.summarizer Stub.out_of_order);
    try reflexivity.
  - discriminate.
  - intros w _. exists (Summarizer.w_result w). split; reflexivity.
Defined.

(** X9: in an iteration that returns without error the ledger has grown by
    the model's turn followed by one tool message for every search_tool or
    reflection_tool invocation of the turn, in the order of the turn, each
    with the id and the name of its invocation; other invocations get no
    message. *)
Theorem tool_calls_answered_in_order svc st resp cont st' tr :
  Research.Execute svc st = (Done (resp, cont), st', tr) →
  ∃ prompt msg choices responses,
    Research.PromptBuilder svc (Research.messages st) = Ok prompt ∧
    Research.CreateChatCompletion svc
      (BuildConversationHistory prompt (Research.messages st))
    = Ok (msg :: choices) ∧
    Research.messages st' = Research.messages st ++ msg :: responses ∧
    Forall2 answers (filter Research.known (ToolCalls msg)) responses.
Proof.
  intros (prompt & msg & choices & EP & EC & Ed)%Execute_done_dispatch.
  apply dispatch_all_done_messages in Ed as (responses & Em & Hall).
  exists prompt, msg, choices, responses. repeat split; try done.
  rewrite Em. simpl. by rewrite <- app_assoc.
Qed.

Lemma tool_calls_answered_in_order_witness :
  ∃ prompt msg choices responses,
    Research.PromptBuilder Fixture.careful (Research.messages Stub.research_state)
    = Ok prompt ∧
    Research.CreateChatCompletion Fixture.careful
      (BuildConversationHistory prompt (Research.messages Stub.research_state))
    = Ok (msg :: choices) ∧
    Research.messages
      (snd (fst (Research.Execute Fixture.careful Stub.research_state)))
    = Research.messages Stub.research_state ++ msg :: responses ∧
    Forall2 answers (filter Research.known (ToolCalls msg)) responses.
Proof.
  eapply (tool_calls_answered_in_order Fixture.careful Stub.research_state
            "" true).
  vm_compute. reflexivity.
Defined.

(** ** What an iteration never takes back *)

Section AppendOnly.
Import Research.
Variable svc : Services.

#[local] Instance appends_preorder : PreOrder appends.
Proof.
  split.
  - intros st. by split.
  - intros st1 st2 st3 [H1 H2] [H3 H4]. split; by etrans.
Qed.

Ltac appends_step :=
  first
    [ apply (preserves_bind appends); [|intros ?]
    | apply (preserves_ret appends) | apply (preserves_get appends)
    | apply (preserves_emit appends) | apply (preserves_stop appends)
    | apply (preserves_call appends) | apply (preserves_call_wrapped appends)
    | apply (preserves_attempt appends) ].

Lemma summarizer_appends sm sched results notes :
  notes `prefix_of`
    snd (Summarizer.summarizeWebSearchResult sm sched results notes).
Proof.
  unfold Summarizer.summarizeWebSearchResult.
  destruct results as [|x results]; [done|].
  destruct (fst _); simpl; try done. by apply prefix_app_r.
Qed.

Lemma appends_summarize results : preserves appends (summarize svc results).
Proof.
  intros st. unfold summarize. destruct (batch svc (messages st)) as [sm sched].
  pose proof (summarizer_appends sm sched results (compressedResearchNotes st))
    as Hn.
  destruct (Summarizer.summarizeWebSearchResult _ _ _ _) as [o notes].
  by split.
Qed.

Lemma appends_append msg : preserves appends (append msg).
Proof.
  apply (preserves_modify appends). intros st. split; simpl; [|done].
  by apply prefix_app_r.
Qed.

Lemma appends_dispatch toolCall : preserves appends (dispatch svc toolCall).
Proof.
  unfold dispatch, on_error. appends_step; case_decide;
    repeat first [appends_step | apply appends_append | apply appends_summarize].
Qed.

Lemma appends_dispatch_all toolCalls :
  preserves appends (dispatch_all svc toolCalls).
Proof.
  induction toolCalls as [|toolCall rest IH]; simpl; appends_step.
  - apply appends_dispatch.
  - apply IH.
Qed.

Lemma appends_Execute : preserves appends (Execute svc).
Proof.
  unfold Execute. do 3 appends_step; try appends_step.
  match goal with
  | choices : list ChatCompletionMessage |- _ =>
      destruct choices as [|msg choices]; repeat appends_step
  end.
  - apply appends_append.
  - case_decide; repeat appends_step. apply appends_dispatch_all.
Qed.

End AppendOnly.

(** X10: whatever its outcome (a result, an error, a panic), an iteration
    only appends: the ledger it leaves starts with the ledger it found and
    the compressed notes it leaves start with the notes it found. *)
Theorem iteration_only_appends svc st :
  Research.messages st
    `prefix_of` Research.messages (snd (fst (Research.Execute svc st))) ∧
  Research.compressedResearchNotes st
    `prefix_of`
    Research.compressedResearchNotes (snd (fst (Research.Execute svc st))).
Proof. apply (appends_Execute svc st). Qed.

(** X11: how an iteration ends before any tool is dispatched.  An error of
    the prompt builder comes back as it is and an error of the completion
    service as "failed to create chat completion: ...", both with the state
    as it was; a response without choices makes the iteration panic; a turn
    without tool invocations is appended to the ledger and the iteration
    reports no continuation, with no search made and the notes as they
    were. *)
Theorem iteration_without_tools svc st :
  (∀ e,
     Research.PromptBuilder svc (Research.messages st) = Err e →
     Research.Execute svc st = (Fail e, st, [])) ∧
  (∀ prompt e,
     Research.PromptBuilder svc (Research.messages st) = Ok prompt →
     Research.CreateChatCompletion svc
       (BuildConversationHistory prompt (Research.messages st)) = Err e →
     Research.Execute svc st
     = (Fail (wrap "failed to create chat completion" e), st, [])) ∧
  (∀ prompt,
     Research.PromptBuilder svc (Research.messages st) = Ok prompt →
     Research.CreateChatCompletion svc
       (BuildConversationHistory prompt (Research.messages st)) = Ok [] →
     Research.Execute svc st = (Panic, st, [])) ∧
  (∀ prompt msg choices,
     Research.PromptBuilder svc (Research.messages st) = Ok prompt →
     Research.CreateChatCompletion svc
       (BuildConversationHistory prompt (Research.messages st))
     = Ok (msg :: choices) →
     ToolCalls msg = [] →
     Research.Execute svc st
     = (Done ("", false),
        {| Research.messages := Research.messages st ++ [msg];
           Research.compressedResearchNotes :=
             Research.compressedResearchNotes st |}, [])).
Proof.
  unfold Research.Execute. rewrite get_bind. split; [|split; [|split]].
  - by intros e ->.
  - intros prompt e -> EC. simpl call. by rewrite ret_bind, EC.
  - intros prompt -> EC. simpl call. by rewrite ret_bind, EC.
  - intros prompt msg choices -> EC Et. simpl call. rewrite ret_bind, EC.
    simpl call_wrapped. rewrite ret_bind. unfold Research.append.
    rewrite modify_bind, Et. done.
Qed.

Lemma iteration_without_tools_witness :
  Research.Execute Stub.research_down Stub.research_state
  = (Fail (wrap "failed to create chat completion" "connection refused"),
     Stub.research_state, []).
Proof.
  eapply (iteration_without_tools Stub.research_down Stub.research_state);
    reflexivity.
Defined.

(** ** The clarify, brief and report workflows *)

(** X12: a clarify iteration that does not succeed leaves the clarify ledger
    as it was and is an error, never a panic: the error of the prompt
    builder as it is, or the error of the completion service as "failed to
    create chat completion: ...". *)
Theorem clarify_failure_keeps_ledger svc ms :
  (∃ resp cont ms', Clarify.Execute svc ms = (Done (resp, cont), ms', [])) ∨
  (∃ e, Clarify.Execute svc ms = (Fail e, ms, []) ∧
        (Clarify.PromptBuilder svc ms = Err e ∨
         ∃ prompt e',
           Clarify.PromptBuilder svc ms = Ok prompt ∧
           Clarify.CreateChatCompletion svc ms prompt = Err e' ∧
           e = wrap "failed to create chat completion" e')).
Proof.
  destruct (Clarify.PromptBuilder svc ms) as [prompt|e] eqn:EP.
  - destruct (Clarify.CreateChatCompletion svc ms prompt) as [out|e] eqn:EC.
    + left. rewrite (Clarify_Execute_ok _ _ _ _ EP EC). by eexists _, _, _.
    + right. exists (wrap "failed to create chat completion" e). split.
      * unfold Clarify.Execute. rewrite get_bind, EP. simpl call.
        by rewrite ret_bind, EC.
      * right. by exists prompt, e.
  - right. exists e. split; [|by left].
    unfold Clarify.Execute. by rewrite get_bind, EP.
Qed.

(** X13: the brief workflow either appends exactly one assistant message,
    the brief, to the clarify ledger, answers with that brief and reports no
    continuation, or returns an error (the prompt builder's as it is, the
    completion service's as "failed to create chat completion: ...") and
    leaves the ledger as it was. *)
Theorem brief_appends_or_fails svc ms :
  match Brief.PromptBuilder svc ms with
  | Err e => Brief.Execute svc ms = (Fail e, ms, [])
  | Ok prompt =>
      match Brief.CreateChatCompletion svc ms prompt with
      | Err e =>
          Brief.Execute svc ms
          = (Fail (wrap "failed to create chat completion" e), ms, [])
      | Ok ResearchBrief =>
          Brief.Execute svc ms
          = (Done (ResearchBrief, false),
             ms ++ [message ChatMessageRoleAssistant ResearchBrief], [])
      end
  end.
Proof.
  unfold Brief.Execute. rewrite get_bind.
  destruct (Brief.PromptBuilder svc ms) as [prompt|e]; [|done].
  simpl call. rewrite ret_bind.
  by destruct (Brief.CreateChatCompletion svc ms prompt).
Qed.

(** X14: the report workflow only reads: whatever its outcome it leaves the
    brief and the notes as they were and makes no search; it answers with
    the report and the flag true, or returns the prompt builder's error as
    "failed to build prompt: ..." or the completion service's as "failed to
    generate research report: ...". *)
Theorem report_only_reads svc st :
  snd (fst (Report.Execute svc st)) = st ∧
  snd (Report.Execute svc st) = [] ∧
  ((∃ report, fst (fst (Report.Execute svc st)) = Done (report, true)) ∨
   (∃ e, Report.PromptBuilder svc st = Err e ∧
         fst (fst (Report.Execute svc st))
         = Fail (wrap "failed to build prompt" e)) ∨
   (∃ e, fst (fst (Report.Execute svc st))
         = Fail (wrap "failed to generate research report" e))).
Proof.
  unfold Report.Execute. rewrite get_bind.
  destruct (Report.PromptBuilder svc st) as [prompt|e] eqn:EP.
  - simpl call_wrapped. rewrite ret_bind.
    destruct (Report.CreateChatCompletion svc st prompt) as [report|e].
    + repeat split; try done. left. by exists report.
    + repeat split; try done. right; right. by exists e.
  - repeat split; try done. right; left. by exists e.
Qed.

(** ** Reading the user's input *)

(** X15: reading a line never ends the session by itself.  At the end of
    input [processUserInput] answers false and changes nothing; an empty
    line is reported to the user, leaves the clarify ledger as it was, and
    the answer is still true, so that the clarify workflow runs on the
    unchanged ledger and, when it asks for nothing more, the clarify loop is
    over without a message of the user; any other line is appended to the
    clarify ledger as one user message. *)
Theorem empty_line_is_not_the_end st :
  Session.processUserInput None st = (Done false, st, [UserPrompt]) ∧
  Session.processUserInput (Some "") st
  = (Done true, st,
     [UserPrompt; ErrorProcessing "user message cannot be empty"]) ∧
  (∀ line, line ≠ "" →
     Session.processUserInput (Some line) st
     = (Done true,
        {| Session.conversation :=
             Session.conversation st ++ [message ChatMessageRoleUser line];
           Session.researchConversation := Session.researchConversation st;
           Session.researchBrief := Session.researchBrief st;
           Session.compressedResearchNotes :=
             Session.compressedResearchNotes st |},
        [UserPrompt])) ∧
  (∀ wf rest resp s1 tr1,
     Session.wf_clarifyWithUser wf st = (Done (resp, false), s1, tr1) →
     Session.clarifyLoop wf ("" :: rest) st
     = (Done rest, s1,
        UserPrompt :: ErrorProcessing "user message cannot be empty"
          :: Executes clarifyWithUser :: tr1 ++ [Response resp])).
Proof.
  split; [done|]. split; [done|]. split.
  - intros line Hne. unfold Session.processUserInput. rewrite emit_bind.
    unfold mbind, M_bind, attempt, Session.addUserMessage.
    rewrite decide_False; [done|]. by destruct line.
  - intros wf rest resp s1 tr1 Ec. simpl Session.clarifyLoop.
    unfold Session.clarifyTurn.
    rewrite (bind_done _ _ _ _ _ _
               (eq_refl : Session.processUserInput (Some "") st
                          = (Done true, st,
                             [UserPrompt;
                              ErrorProcessing "user message cannot be empty"]))).
    change (negb true) with false. cbv iota.
    rewrite emit_bind, (bind_done _ _ _ _ _ _ (attempt_done _ _ _ _ _ Ec)).
    by rewrite emit_bind.
Qed.

Lemma empty_line_is_not_the_end_witness :
  Session.clarifyLoop (Session.NewChatSession (Stub.session Stub.quiet))
    [""; "never read"] Session.initial
  = (Done ["never read"],
     {| Session.conversation :=
          [message ChatMessageRoleAssistant "Information complete."];
        Session.researchConversation := [];
        Session.researchBrief := "";
        Session.compressedResearchNotes := [] |},
     UserPrompt :: ErrorProcessing "user message cannot be empty"
       :: Executes clarifyWithUser :: [] ++ [Response "Information complete."]).
Proof.
  apply (empty_line_is_not_the_end Session.initial). reflexivity.
Defined.

(** ** The loops of [Run] *)

Section LoopFacts.
Import Session.
Variable wf : WorkflowManager.

Lemma clarifyTurn_cases userInput rest again st :
  (∃ s tr, clarifyTurn wf userInput rest again st = (Done rest, s, tr)) ∨
  (∃ s0 tr0,
     clarifyTurn wf userInput rest again st
     = (fst (again s0), tr0 ++ snd (again s0))) ∨
  (∀ a, fst (fst (clarifyTurn wf userInput rest again st)) ≠ Done a) ∧
  (∀ e, fst (fst (clarifyTurn wf userInput rest again st)) ≠ Fail e).
Proof.
  unfold clarifyTurn. destruct userInput as [line|]; [|left; by eexists _, _].
  pose proof (processUserInput_some line st) as Hp.
  destruct (processUserInput (Some line) st) as [[o s0] tr0] eqn:E0.
  simpl in Hp. subst o. rewrite (bind_done _ _ _ _ _ _ E0).
  change (negb true) with false. cbv iota. rewrite emit_bind.
  destruct (wf_clarifyWithUser wf s0) as [[o1 s1] tr1] eqn:E1.
  destruct o1 as [[resp [|]]|e| | |].
  - right; left. rewrite (bind_done _ _ _ _ _ _ (attempt_done _ _ _ _ _ E1)).
    rewrite emit_bind. simpl.
    exists s1, (tr0 ++ Executes clarifyWithUser :: tr1 ++ [Response resp]).
    destruct (again s1) as [[o2 s2] tr2]. simpl.
    f_equal. rewrite <- !app_assoc. simpl. by rewrite <- app_assoc.
  - left. rewrite (bind_done _ _ _ _ _ _ (attempt_done _ _ _ _ _ E1)).
    rewrite emit_bind. by eexists _, _.
  - left. rewrite (bind_done _ _ _ _ _ _ (attempt_fail _ _ _ _ _ E1)).
    rewrite emit_bind. by eexists _, _.
  - right; right. unfold mbind, M_bind, attempt. rewrite E1. by split.
  - right; right. unfold mbind, M_bind, attempt. rewrite E1. by split.
  - right; right. unfold mbind, M_bind, attempt. rewrite E1. by split.
Qed.

Lemma clarifyLoop_reads input st :
  (∀ e, fst (fst (clarifyLoop wf input st)) ≠ Fail e) ∧
  (∀ rest s tr, clarifyLoop wf input st = (Done rest, s, tr) →
                rest `suffix_of` input).
Proof.
  revert st. induction input as [|line input IH]; intros st; simpl.
  - destruct (clarifyTurn_cases None [] (mret []) st)
      as [(s & tr & E)|[(s0 & tr0 & E)|[Hd Hf]]].
    + rewrite E. split; [done|]. by intros rest s' tr' [= <- _ _].
    + rewrite E. split; [done|]. by intros rest s' tr' [= <- _ _].
    + split; [done|]. intros rest s' tr' E. rewrite E in Hd. by destruct (Hd rest).
  - destruct (clarifyTurn_cases (Some line) input (clarifyLoop wf input) st)
      as [(s & tr & E)|[(s0 & tr0 & E)|[Hd Hf]]].
    + rewrite E. split; [done|]. intros rest s' tr' [= <- _ _].
      by apply suffix_cons_r.
    + rewrite E. destruct (IH s0) as [IH1 IH2].
      destruct (clarifyLoop wf input s0) as [[o1 s1] tr1]. simpl in *.
      split; [done|]. intros rest s' tr' [= -> _ _].
      apply suffix_cons_r. by eapply IH2.
    + split; [done|]. intros rest s' tr' E. rewrite E in Hd. by destruct (Hd rest).
Qed.

Lemma researchLoop_never_fails fuel st e :
  fst (fst (researchLoop wf fuel st)) ≠ Fail e.
Proof.
  revert st. induction fuel as [|fuel IH]; intros st; simpl; [done|].
  rewrite emit_bind. simpl. unfold mbind, M_bind, attempt.
  destruct (wf_webResearch wf st) as [[o s1] tr1].
  destruct o as [[resp [|]]|e'| | |]; simpl; try done.
  specialize (IH s1). by destruct (researchLoop wf fuel s1) as [[o2 s2] tr2].
Qed.

Lemma researchLoop_continues fuel st resp s1 tr1 :
  wf_webResearch wf st = (Done (resp, true), s1, tr1) →
  researchLoop wf (S fuel) st
  = (fst (researchLoop wf fuel s1),
     Executes webResearch :: tr1 ++ snd (researchLoop wf fuel s1)).
Proof.
  intros E. simpl.
  by rewrite emit_bind, (bind_done _ _ _ _ _ _ (attempt_done _ _ _ _ _ E)).
Qed.

End LoopFacts.

(** X16: the clarify loop never returns an error, whatever the clarify
    workflow does, and the lines it hands back as not read are a final part
    of the input, in the order of the input. *)
Theorem clarify_loop_reads_in_order wf input st :
  (∀ e, fst (fst (Session.clarifyLoop wf input st)) ≠ Fail e) ∧
  (∀ rest s tr,
     Session.clarifyLoop wf input st = (Done rest, s, tr) →
     rest `suffix_of` input).
Proof. apply clarifyLoop_reads. Qed.

Lemma clarify_loop_reads_in_order_witness :
  ["never read"] `suffix_of` ["a question"; "never read"].
Proof.
  eapply (clarify_loop_reads_in_order
            (Session.NewChatSession (Stub.session Stub.quiet))
            ["a question"; "never read"] Session.initial).
  reflexivity.
Defined.

(** X17: the only errors [Run] returns are those of the brief workflow and
    of the report workflow, as "error generating response: ..."; the state
    it leaves is the one that workflow left. *)
Theorem run_errors_come_from_brief_or_report wf fuel input st e st' tr :
  Session.Run wf fuel input st = (Fail e, st', tr) →
  ∃ e' s tr',
    e = "error generating response: " +:+ e' ∧
    (Session.wf_researchBriefGeneration wf s = (Fail e', st', tr') ∨
     Session.wf_researchReportGeneration wf s = (Fail e', st', tr')).
Proof.
  intros H.
  destruct (clarifyLoop_reads wf input st) as [Hnf _].
  destruct (Session.clarifyLoop wf input st) as [[o1 s1] tr1] eqn:Ec.
  destruct o1 as [rest|e1| | |]; [|by destruct (Hnf e1)|..].
  2-4: unfold Session.Run in H; rewrite emit_bind in H;
       unfold mbind at 1, M_bind in H; by rewrite Ec in H.
  rewrite (Run_after_clarify _ _ _ _ _ _ _ Ec) in H.
  destruct (Session.wf_researchBriefGeneration wf s1) as [[o2 s2] tr2] eqn:Eb.
  destruct o2 as [[resp cont]|e2| | |].
  - rewrite (briefPhase_done _ _ _ _ _ _ _ Eb) in H.
    pose proof (researchLoop_never_fails wf fuel (Session.seed resp s2)) as Hr.
    destruct (Session.researchLoop wf fuel (Session.seed resp s2))
      as [[o3 s3] tr3] eqn:El.
    destruct o3 as [[]|e3| | |]; [|by destruct (Hr e3)|..].
    2-4: unfold mbind, M_bind in H; by rewrite El in H.
    rewrite (bind_done _ _ _ _ _ _ El) in H.
    destruct (Session.wf_researchReportGeneration wf s3)
      as [[o4 s4] tr4] eqn:Er.
    destruct o4 as [[report more]|e4| | |].
    + by rewrite (reportPhase_done _ _ _ _ _ _ Er) in H.
    + rewrite (reportPhase_fails _ _ _ _ _ Er) in H.
      injection H as <- <- _. exists e4, s3, tr4. split; [done|by right].
    + unfold Session.reportPhase in H. rewrite emit_bind in H.
      unfold mbind, M_bind, attempt in H. by rewrite Er in H.
    + unfold Session.reportPhase in H. rewrite emit_bind in H.
      unfold mbind, M_bind, attempt in H. by rewrite Er in H.
    + unfold Session.reportPhase in H. rewrite emit_bind in H.
      unfold mbind, M_bind, attempt in H. by rewrite Er in H.
  - rewrite (briefPhase_fails _ _ _ _ _ _ Eb) in H.
    injection H as <- <- _. exists e2, s1, tr2. split; [done|by left].
  - unfold Session.briefPhase in H. rewrite emit_bind in H.
    unfold mbind, M_bind, attempt in H. by rewrite Eb in H.
  - unfold Session.briefPhase in H. rewrite emit_bind in H.
    unfold mbind, M_bind, attempt in H. by rewrite Eb in H.
  - unfold Session.briefPhase in H. rewrite emit_bind in H.
    unfold mbind, M_bind, attempt in H. by rewrite Eb in H.
Qed.

Lemma run_errors_come_from_brief_or_report_witness :
  ∃ e' s tr',
    "error generating response: failed to generate research report: connection refused"
    = "error generating response: " +:+ e' ∧
    (Session.wf_researchBriefGeneration
       (Session.NewChatSession Fixture.no_report) s
     = (Fail e',
        snd (fst (Session.Run (Session.NewChatSession Fixture.no_report) 3
                    ["a question"] Session.initial)),
        tr') ∨
     Session.wf_researchReportGeneration
       (Session.NewChatSession Fixture.no_report) s
     = (Fail e',
        snd (fst (Session.Run (Session.NewChatSession Fixture.no_report) 3
                    ["a question"] Session.initial)),
        tr')).
Proof.
  eapply (run_errors_come_from_brief_or_report
            (Session.NewChatSession Fixture.no_report) 3 ["a question"]
            Session.initial).
  vm_compute. reflexivity.
Defined.

(** X18: the second loop of [Run] has no bound of its own: if the research
    workflow keeps answering without error and with [cont = true], then for
    every [n] the loop is still running after [n] executions of the
    workflow. *)
Theorem research_loop_is_unbounded wf :
  (∀ st, ∃ resp s tr,
     Session.wf_webResearch wf st = (Done (resp, true), s, tr)) →
  ∀ fuel st,
    fst (fst (Session.researchLoop wf fuel st)) = OutOfFuel ∧
    fuel ≤ executions webResearch (snd (Session.researchLoop wf fuel st)).
Proof.
  intros Hc fuel. induction fuel as [|fuel IH]; intros st.
  - split; [done|]. lia.
  - destruct (Hc st) as (resp & s & tr & E).
    rewrite (researchLoop_continues _ _ _ _ _ _ E). simpl fst. simpl snd.
    destruct (IH s) as [IH1 IH2]. split; [done|].
    unfold executions in *. rewrite filter_cons_True by done.
    rewrite filter_app, length_cons, length_app. lia.
Qed.

Lemma research_loop_is_unbounded_witness :
  fst (fst (Session.researchLoop
              (Session.NewChatSession (Stub.session Stub.thinker)) 4
              Session.initial)) = OutOfFuel ∧
  4 ≤ executions webResearch
        (snd (Session.researchLoop
                (Session.NewChatSession (Stub.session Stub.thinker)) 4
                Session.initial)).
Proof.
  apply (research_loop_is_unbounded
           (Session.NewChatSession (Stub.session Stub.thinker))).
  intros st. by eexists _, _, _.
Defined.

(** ** The search tool *)

Lemma GetString_no_default env key :
  fst (Config.GetString env key "")
  = Config.TrimSpace env (Config.Getenv env key).
Proof.
  unfold Config.GetString, Config.GetEnvOrDefault, Config.StringParser.
  by case_decide.
Qed.

(** X19: a search that succeeds has parsed its input and sent a POST request
    to the fixed Exa endpoint that asks for 10 results of type "auto" with
    their text and carries the trimmed value of EXA_API_KEY as its x-api-key
    header; it returns the texts of the hits in the order of the response. *)
Theorem search_sends_one_request w input texts :
  Tools.Execute w input = Ok texts →
  ∃ query payload body hits,
    Tools.Unmarshal_SearchTool w input = Ok query ∧
    Tools.Marshal w {| Tools.Query := query; Tools.Type_ := "auto";
                       Tools.NumResults := 10;
                       Tools.Content := [("text", true)] |} = Ok payload ∧
    Tools.NewRequest w "POST" "https://api.exa.ai/search" = None ∧
    Tools.Do w {| Tools.Method := "POST";
                  Tools.URL := "https://api.exa.ai/search";
                  Tools.Header :=
                    [("x-api-key",
                      Config.TrimSpace (Tools.env w)
                        (Config.Getenv (Tools.env w) "EXA_API_KEY"));
                     ("Content-Type", "application/json")];
                  Tools.Body := payload |} = Ok (Ok body) ∧
    Tools.Unmarshal_exaSearchResponse w body = Ok hits ∧
    texts = Tools.Text <$> hits.
Proof.
  unfold Tools.Execute, Tools.Search, Config.LoadConfig. cbn [Config.ExaEndpoint
    Config.ExaKey Config.ExaNumSearchResult].
  rewrite GetString_no_default. intros H.
  destruct (Tools.Unmarshal_SearchTool w input) as [query|e1]; [|done].
  destruct (Tools.Marshal w _) as [payload|e2] eqn:Em; [|done].
  destruct (Tools.NewRequest w _ _) as [e3|] eqn:En; [done|].
  destruct (Tools.Do w _) as [[body|e5]|e4] eqn:Ed; [|done..].
  destruct (Tools.Unmarshal_exaSearchResponse w body) as [hits|e6] eqn:Eu;
    [|done].
  injection H as <-. by exists query, payload, body, hits.
Qed.

Lemma search_sends_one_request_witness :
  ∃ query payload body hits,
    Tools.Unmarshal_SearchTool
      (Fixture.online [Fixture.hit "first"; Fixture.hit "second"]) "query"
    = Ok query ∧
    Tools.Marshal (Fixture.online [Fixture.hit "first"; Fixture.hit "second"])
      {| Tools.Query := query; Tools.Type_ := "auto"; Tools.NumResults := 10;
         Tools.Content := [("text", true)] |} = Ok payload ∧
    Tools.NewRequest
      (Fixture.online [Fixture.hit "first"; Fixture.hit "second"])
      "POST" "https://api.exa.ai/search" = None ∧
    Tools.Do (Fixture.online [Fixture.hit "first"; Fixture.hit "second"])
      {| Tools.Method := "POST"; Tools.URL := "https://api.exa.ai/search";
         Tools.Header :=
           [("x-api-key",
             Config.TrimSpace Fixture.environment
               (Config.Getenv Fixture.environment "EXA_API_KEY"));
            ("Content-Type", "application/json")];
         Tools.Body := payload |} = Ok (Ok body) ∧
    Tools.Unmarshal_exaSearchResponse
      (Fixture.online [Fixture.hit "first"; Fixture.hit "second"]) body
    = Ok hits ∧
    ["first"; "second"] = Tools.Text <$> hits.
Proof.
  apply (search_sends_one_request
           (Fixture.online [Fixture.hit "first"; Fixture.hit "second"])
           "query" ["first"; "second"]).
  reflexivity.
Defined.

(** X20: every error of the search tool is either "failed to parse search
    input: ...", for an input that does not parse and also for a request
    payload that cannot be encoded, or "failed to search: <stage>: ..." with
    the stage of the request that failed; the error for a configuration that
    does not load is never returned. *)
Theorem search_errors w input e :
  Tools.Execute w input = Err e →
  (∃ e', e = wrap "failed to parse search input" e' ∧
         (Tools.Unmarshal_SearchTool w input = Err e' ∨
          ∃ query,
            Tools.Unmarshal_SearchTool w input = Ok query ∧
            Tools.Marshal w {| Tools.Query := query; Tools.Type_ := "auto";
                               Tools.NumResults := 10;
                               Tools.Content := [("text", true)] |}
            = Err e')) ∨
  (∃ stage e',
     e = wrap "failed to search" (wrap stage e') ∧
     stage ∈ ["failed to create request"; "failed to send request";
              "failed to read response body";
              "failed to parse JSON response"]).
Proof.
  unfold Tools.Execute, Tools.Search, Config.LoadConfig. cbn [Config.ExaEndpoint
    Config.ExaKey Config.ExaNumSearchResult].
  intros H.
  destruct (Tools.Unmarshal_SearchTool w input) as [query|e1] eqn:E1.
  2: { injection H as <-. left. exists e1. split; [done|by left]. }
  destruct (Tools.Marshal w _) as [payload|e2] eqn:Em.
  2: { injection H as <-. left. exists e2. split; [done|]. right. by exists query. }
  right.
  destruct (Tools.NewRequest w _ _) as [e3|] eqn:En.
  { injection H as <-. exists "failed to create request", e3.
    split; [done|]. rewrite !elem_of_cons. auto 6. }
  destruct (Tools.Do w _) as [[body|e5]|e4] eqn:Ed.
  - destruct (Tools.Unmarshal_exaSearchResponse w body) as [hits|e6] eqn:Eu;
      [done|].
    injection H as <-. exists "failed to parse JSON response", e6.
    split; [done|]. rewrite !elem_of_cons. auto 6.
  - injection H as <-. exists "failed to read response body", e5.
    split; [done|]. rewrite !elem_of_cons. auto 6.
  - injection H as <-. exists "failed to send request", e4.
    split; [done|]. rewrite !elem_of_cons. auto 6.
Qed.

Lemma search_errors_witness :
  (∃ e', "failed to search: failed to send request: network unreachable"
         = wrap "failed to parse search input" e' ∧
         (Tools.Unmarshal_SearchTool Fixture.offline "query" = Err e' ∨
          ∃ query,
            Tools.Unmarshal_SearchTool Fixture.offline "query" = Ok query ∧
            Tools.Marshal Fixture.offline
              {| Tools.Query := query; Tools.Type_ := "auto";
                 Tools.NumResults := 10;
                 Tools.Content := [("text", true)] |}
            = Err e')) ∨
  (∃ stage e',
     "failed to search: failed to send request: network unreachable"
     = wrap "failed to search" (wrap stage e') ∧
     stage ∈ ["failed to create request"; "failed to send request";
              "failed to read response body";
              "failed to parse JSON response"]).
Proof.
  apply (search_errors Fixture.offline "query"). reflexivity.
Defined.
